(** * URITOMO meeting session controller: [useActiveMeetingLogic]

    A shallow embedding of the React hook in
    [src/app/hooks/useActiveMeetingLogic.ts] and of the properties its
    specification states about it.
    The wrapper and the sticker buttons of the page that uses the hook,
    [src/app/pages/ActiveMeeting.tsx], are embedded as well.

    Conventions of the embedding.
    - A [useState] cell is a field of [State]; its setter is an [Action]
      that overwrites that field.
    - Everything a handler does to the outside (toasts, messages to the
      host process, calls on the transport, console output, local storage,
      navigation) is recorded in [World].
    - A handler reads the state cells through the closure of the render
      that created it.  Handlers therefore take that render's [State] as an
      explicit argument [r], next to the state they write to.
    - An [async] handler is cut at its [await]: the part before it issues
      the call, the continuation takes the way the promise settled.
    - Times are milliseconds since the epoch, as [Date.now()] gives them. *)

From Stdlib Require Import String Ascii List Bool ZArith NArith Arith Lia.
From Stdlib Require Import DecimalString Sorted.
From Stdlib Require DecimalZ DecimalN DecimalPos.
Import ListNotations.

Open Scope string_scope.
Open Scope list_scope.

(** ** JavaScript values used by the hook *)

Module JS.

(** [a || b] on strings: the empty string is falsy. *)
Definition or_str (a b : string) : string :=
  if String.eqb a "" then b else a.

(** [a || b] where [a] may be [undefined]. *)
Definition or_undef (a : option string) (b : string) : string :=
  match a with
  | Some s => or_str s b
  | None => b
  end.

(** [String.prototype.includes]. *)
Fixpoint includes (hay needle : string) : bool :=
  String.prefix needle hay
  || match hay with
     | EmptyString => false
     | String _ rest => includes rest needle
     end.

(** [Number.prototype.toString()] on an integer. *)
Definition Number_toString (n : Z) : string :=
  NilZero.string_of_int (Z.to_int n).

(** User text is kept as its UTF-16 code units, which is what [trim]
    works on. *)
Definition codeunit := N.
Definition text := list codeunit.

(** WhiteSpace and LineTerminator of ECMAScript: the code points that
    [trim] strips.  All of them are in the Basic Multilingual Plane. *)
Definition isWhiteSpace (c : codeunit) : bool :=
  (N.eqb c 0x9 || N.eqb c 0xA || N.eqb c 0xB || N.eqb c 0xC || N.eqb c 0xD
   || N.eqb c 0x20 || N.eqb c 0xA0 || N.eqb c 0x1680
   || (N.leb 0x2000 c && N.leb c 0x200A)
   || N.eqb c 0x2028 || N.eqb c 0x2029 || N.eqb c 0x202F
   || N.eqb c 0x205F || N.eqb c 0x3000 || N.eqb c 0xFEFF)%N.

Fixpoint trimStart (s : text) : text :=
  match s with
  | c :: rest => if isWhiteSpace c then trimStart rest else s
  | [] => []
  end.

Definition trimEnd (s : text) : text := rev (trimStart (rev s)).

Definition trim (s : text) : text := trimEnd (trimStart s).

(** Truthiness of a string: non-empty. *)
Definition truthy (s : text) : bool :=
  match s with [] => false | _ :: _ => true end.

End JS.

(** A [Date] is its time value. *)
Definition Date := Z.

(** ** Types of the hook *)

Inductive MediaDeviceKind := audioinput | audiooutput | videoinput.

Definition MediaDeviceKind_eqb (a b : MediaDeviceKind) : bool :=
  match a, b with
  | audioinput, audioinput | audiooutput, audiooutput
  | videoinput, videoinput => true
  | _, _ => false
  end.

Record MediaDeviceInfo := {
  deviceId : string;
  kind : MediaDeviceKind;
  label : string;
  groupId : string
}.

Inductive Lang := ja | ko.

Module Participant.
Record t := {
  id : string;
  name : string;
  isVideoOn : bool;
  isMuted : bool;
  isSpeaking : option bool;
  language : option Lang
}.
End Participant.

Module TranslationLog.
Record t := {
  id : string;
  speaker : string;
  originalText : string;
  translatedText : string;
  originalLang : Lang;
  timestamp : Date
}.
End TranslationLog.

Module ChatMessage.
Record t := {
  id : string;
  sender : string;
  message : JS.text;
  timestamp : Date;
  isAI : option bool;
  fileUrl : option string
}.
End ChatMessage.

Module ScreenSource.
Record t := { id : string; name : string; thumbnail : string }.
End ScreenSource.

(** [currentUserProp] is typed [any]; the hook reads its [name] and
    [language]. *)
Module User.
Record t := { name : string; language : option string }.
End User.

(** ** Collaborators *)

(** The transport room, as far as the hook queries it. *)
Record Room := {
  getActiveDevice : MediaDeviceKind -> option string
}.

(** The local participant; [isScreenShareEnabled] is the transport's own
    answer at the time it is read. *)
Record LocalParticipant := {
  isScreenShareEnabled : bool
}.

(** What a rejected promise carries: the hook looks at [e.name] and
    [e.message]. *)
Record JsError := {
  err_name : option string;
  err_message : option string
}.

(** How an awaited promise settles. *)
Inductive Settled (A : Type) :=
| Fulfilled (v : A)
| Rejected (e : JsError).
Arguments Fulfilled {A} v.
Arguments Rejected {A} e.

(** What a render closes over besides the state cells that have a setter:
    [useRoomContext()], [useLocalParticipant()], [window.ipcRenderer]
    (present only inside the desktop shell), and the three cells that are
    never written after the first render ([currentUser], [meetingTitle],
    [startTime]). *)
Record Env := {
  room : option Room;
  localParticipant : option LocalParticipant;
  ipcRenderer : bool;
  currentUser : User.t;
  meetingTitle : string;
  startTime : Date
}.

(** ** What the hook does to the outside *)

Inductive Toast :=
| toast_success (msg : string)
| toast_info (msg : string)
| toast_error (msg : string).

(** Messages to the host process over [window.ipcRenderer]. *)
Inductive IpcCall :=
| selectScreenSource (id : option string).

(** Calls on the transport. *)
Inductive TransportCall :=
| switchActiveDevice (k : MediaDeviceKind) (id : string)
| setScreenShareEnabled (enabled : bool) (audio : bool).

Inductive ConsoleEntry :=
| console_warn (what : string) (e : JsError)
| console_error (e : JsError).

(** The record [confirmEndMeeting] builds. *)
Module MeetingRecord.
Record participant := {
  p_id : string;
  p_name : string;
  p_language : option string
}.
Record translation := {
  t_id : string;
  t_speaker : string;
  t_originalText : string;
  t_translatedText : string;
  t_originalLang : string;
  t_translatedLang : string;
  t_timestamp : string
}.
Record chat := {
  c_id : string;
  c_userName : string;
  c_message : JS.text;
  c_timestamp : string;
  c_isAI : option bool
}.
Record summary := {
  keyPoints : list string;
  actionItems : list string;
  decisions : list string
}.
Record t := {
  id : string;
  title : string;
  startTime : string;
  endTime : string;
  participants : list participant;
  translationLog : list translation;
  chatMessages : list chat;
  summary_ : summary
}.
End MeetingRecord.

(** ** The state cells and the outside world *)

(** The [useState] cells that the handlers below read or write.  The other
    cells of the hook (microphone and camera switches, sidebar, dialogs,
    profile, term explanations, duration) are written by none of them. *)
Record State := {
  mics : list MediaDeviceInfo;
  cameras : list MediaDeviceInfo;
  speakers : list MediaDeviceInfo;
  selectedMicId : string;
  selectedCameraId : string;
  selectedSpeakerId : string;
  isScreenSharing : bool;
  showScreenPickerModal : bool;
  availableScreens : list ScreenSource.t;
  chatInput : JS.text;
  showStickerPicker : bool;
  chatMessages : list ChatMessage.t;
  translationLogs : list TranslationLog.t;
  participants : list Participant.t
}.

(** One update per cell: the cell takes the value [v], every other cell
    keeps its own. *)
Definition upd_mics (v : list MediaDeviceInfo) (s : State) : State :=
  {| mics := v; cameras := cameras s; speakers := speakers s;
     selectedMicId := selectedMicId s;
     selectedCameraId := selectedCameraId s;
     selectedSpeakerId := selectedSpeakerId s;
     isScreenSharing := isScreenSharing s;
     showScreenPickerModal := showScreenPickerModal s;
     availableScreens := availableScreens s; chatInput := chatInput s;
     showStickerPicker := showStickerPicker s;
     chatMessages := chatMessages s; translationLogs := translationLogs s;
     participants := participants s |}.

Definition upd_cameras (v : list MediaDeviceInfo) (s : State) : State :=
  {| mics := mics s; cameras := v; speakers := speakers s;
     selectedMicId := selectedMicId s;
     selectedCameraId := selectedCameraId s;
     selectedSpeakerId := selectedSpeakerId s;
     isScreenSharing := isScreenSharing s;
     showScreenPickerModal := showScreenPickerModal s;
     availableScreens := availableScreens s; chatInput := chatInput s;
     showStickerPicker := showStickerPicker s;
     chatMessages := chatMessages s; translationLogs := translationLogs s;
     participants := participants s |}.

Definition upd_speakers (v : list MediaDeviceInfo) (s : State) : State :=
  {| mics := mics s; cameras := cameras s; speakers := v;
     selectedMicId := selectedMicId s;
     selectedCameraId := selectedCameraId s;
     selectedSpeakerId := selectedSpeakerId s;
     isScreenSharing := isScreenSharing s;
     showScreenPickerModal := showScreenPickerModal s;
     availableScreens := availableScreens s; chatInput := chatInput s;
     showStickerPicker := showStickerPicker s;
     chatMessages := chatMessages s; translationLogs := translationLogs s;
     participants := participants s |}.

Definition upd_selectedMicId (v : string) (s : State) : State :=
  {| mics := mics s; cameras := cameras s; speakers := speakers s;
     selectedMicId := v; selectedCameraId := selectedCameraId s;
     selectedSpeakerId := selectedSpeakerId s;
     isScreenSharing := isScreenSharing s;
     showScreenPickerModal := showScreenPickerModal s;
     availableScreens := availableScreens s; chatInput := chatInput s;
     showStickerPicker := showStickerPicker s;
     chatMessages := chatMessages s; translationLogs := translationLogs s;
     participants := participants s |}.

Definition upd_selectedCameraId (v : string) (s : State) : State :=
  {| mics := mics s; cameras := cameras s; speakers := speakers s;
     selectedMicId := selectedMicId s; selectedCameraId := v;
     selectedSpeakerId := selectedSpeakerId s;
     isScreenSharing := isScreenSharing s;
     showScreenPickerModal := showScreenPickerModal s;
     availableScreens := availableScreens s; chatInput := chatInput s;
     showStickerPicker := showStickerPicker s;
     chatMessages := chatMessages s; translationLogs := translationLogs s;
     participants := participants s |}.

Definition upd_selectedSpeakerId (v : string) (s : State) : State :=
  {| mics := mics s; cameras := cameras s; speakers := speakers s;
     selectedMicId := selectedMicId s;
     selectedCameraId := selectedCameraId s; selectedSpeakerId := v;
     isScreenSharing := isScreenSharing s;
     showScreenPickerModal := showScreenPickerModal s;
     availableScreens := availableScreens s; chatInput := chatInput s;
     showStickerPicker := showStickerPicker s;
     chatMessages := chatMessages s; translationLogs := translationLogs s;
     participants := participants s |}.

Definition upd_isScreenSharing (v : bool) (s : State) : State :=
  {| mics := mics s; cameras := cameras s; speakers := speakers s;
     selectedMicId := selectedMicId s;
     selectedCameraId := selectedCameraId s;
     selectedSpeakerId := selectedSpeakerId s; isScreenSharing := v;
     showScreenPickerModal := showScreenPickerModal s;
     availableScreens := availableScreens s; chatInput := chatInput s;
     showStickerPicker := showStickerPicker s;
     chatMessages := chatMessages s; translationLogs := translationLogs s;
     participants := participants s |}.

Definition upd_showScreenPickerModal (v : bool) (s : State) : State :=
  {| mics := mics s; cameras := cameras s; speakers := speakers s;
     selectedMicId := selectedMicId s;
     selectedCameraId := selectedCameraId s;
     selectedSpeakerId := selectedSpeakerId s;
     isScreenSharing := isScreenSharing s; showScreenPickerModal := v;
     availableScreens := availableScreens s; chatInput := chatInput s;
     showStickerPicker := showStickerPicker s;
     chatMessages := chatMessages s; translationLogs := translationLogs s;
     participants := participants s |}.

Definition upd_availableScreens (v : list ScreenSource.t) (s : State) : State :=
  {| mics := mics s; cameras := cameras s; speakers := speakers s;
     selectedMicId := selectedMicId s;
     selectedCameraId := selectedCameraId s;
     selectedSpeakerId := selectedSpeakerId s;
     isScreenSharing := isScreenSharing s;
     showScreenPickerModal := showScreenPickerModal s;
     availableScreens := v; chatInput := chatInput s;
     showStickerPicker := showStickerPicker s;
     chatMessages := chatMessages s; translationLogs := translationLogs s;
     participants := participants s |}.

Definition upd_chatInput (v : JS.text) (s : State) : State :=
  {| mics := mics s; cameras := cameras s; speakers := speakers s;
     selectedMicId := selectedMicId s;
     selectedCameraId := selectedCameraId s;
     selectedSpeakerId := selectedSpeakerId s;
     isScreenSharing := isScreenSharing s;
     showScreenPickerModal := showScreenPickerModal s;
     availableScreens := availableScreens s; chatInput := v;
     showStickerPicker := showStickerPicker s;
     chatMessages := chatMessages s; translationLogs := translationLogs s;
     participants := participants s |}.

Definition upd_showStickerPicker (v : bool) (s : State) : State :=
  {| mics := mics s; cameras := cameras s; speakers := speakers s;
     selectedMicId := selectedMicId s;
     selectedCameraId := selectedCameraId s;
     selectedSpeakerId := selectedSpeakerId s;
     isScreenSharing := isScreenSharing s;
     showScreenPickerModal := showScreenPickerModal s;
     availableScreens := availableScreens s; chatInput := chatInput s;
     showStickerPicker := v; chatMessages := chatMessages s;
     translationLogs := translationLogs s; participants := participants s |}.

Definition upd_chatMessages (v : list ChatMessage.t) (s : State) : State :=
  {| mics := mics s; cameras := cameras s; speakers := speakers s;
     selectedMicId := selectedMicId s;
     selectedCameraId := selectedCameraId s;
     selectedSpeakerId := selectedSpeakerId s;
     isScreenSharing := isScreenSharing s;
     showScreenPickerModal := showScreenPickerModal s;
     availableScreens := availableScreens s; chatInput := chatInput s;
     showStickerPicker := showStickerPicker s; chatMessages := v;
     translationLogs := translationLogs s; participants := participants s |}.

Definition upd_translationLogs (v : list TranslationLog.t) (s : State) : State :=
  {| mics := mics s; cameras := cameras s; speakers := speakers s;
     selectedMicId := selectedMicId s;
     selectedCameraId := selectedCameraId s;
     selectedSpeakerId := selectedSpeakerId s;
     isScreenSharing := isScreenSharing s;
     showScreenPickerModal := showScreenPickerModal s;
     availableScreens := availableScreens s; chatInput := chatInput s;
     showStickerPicker := showStickerPicker s;
     chatMessages := chatMessages s; translationLogs := v;
     participants := participants s |}.

Definition upd_participants (v : list Participant.t) (s : State) : State :=
  {| mics := mics s; cameras := cameras s; speakers := speakers s;
     selectedMicId := selectedMicId s;
     selectedCameraId := selectedCameraId s;
     selectedSpeakerId := selectedSpeakerId s;
     isScreenSharing := isScreenSharing s;
     showScreenPickerModal := showScreenPickerModal s;
     availableScreens := availableScreens s; chatInput := chatInput s;
     showStickerPicker := showStickerPicker s;
     chatMessages := chatMessages s; translationLogs := translationLogs s;
     participants := v |}.

(** What has been done to the outside so far, oldest first, and the
    [meetings] entry of the local storage. *)
Record World := {
  toasts : list Toast;
  ipcSent : list IpcCall;
  transportCalls : list TransportCall;
  consoleLog : list ConsoleEntry;
  storedMeetings : option (list MeetingRecord.t);
  navigated : list string
}.

Definition upd_toasts (v : list Toast) (w : World) : World :=
  {| toasts := v; ipcSent := ipcSent w;
     transportCalls := transportCalls w; consoleLog := consoleLog w;
     storedMeetings := storedMeetings w; navigated := navigated w |}.

Definition upd_ipcSent (v : list IpcCall) (w : World) : World :=
  {| toasts := toasts w; ipcSent := v; transportCalls := transportCalls w;
     consoleLog := consoleLog w; storedMeetings := storedMeetings w;
     navigated := navigated w |}.

Definition upd_transportCalls (v : list TransportCall) (w : World) : World :=
  {| toasts := toasts w; ipcSent := ipcSent w; transportCalls := v;
     consoleLog := consoleLog w; storedMeetings := storedMeetings w;
     navigated := navigated w |}.

Definition upd_consoleLog (v : list ConsoleEntry) (w : World) : World :=
  {| toasts := toasts w; ipcSent := ipcSent w;
     transportCalls := transportCalls w; consoleLog := v;
     storedMeetings := storedMeetings w; navigated := navigated w |}.

Definition upd_storedMeetings (v : option (list MeetingRecord.t)) (w : World) : World :=
  {| toasts := toasts w; ipcSent := ipcSent w;
     transportCalls := transportCalls w; consoleLog := consoleLog w;
     storedMeetings := v; navigated := navigated w |}.

Definition upd_navigated (v : list string) (w : World) : World :=
  {| toasts := toasts w; ipcSent := ipcSent w;
     transportCalls := transportCalls w; consoleLog := consoleLog w;
     storedMeetings := storedMeetings w; navigated := v |}.

(** ** Actions: what a handler does to the state cells and to the world *)

Definition Action (A : Type) : Type := State -> World -> A * State * World.

Definition ret {A : Type} (a : A) : Action A := fun s w => (a, s, w).

Definition bind {A B : Type} (m : Action A) (f : A -> Action B) : Action B :=
  fun s w => let '(a, s', w') := m s w in f a s' w'.

Declare Scope action_scope.
Delimit Scope action_scope with action.
Notation "x <- m ;; k" := (bind m (fun x => k))
  (at level 100, m at next level, right associativity) : action_scope.
Notation "m ;; k" := (bind m (fun _ => k))
  (at level 100, right associativity) : action_scope.
Open Scope action_scope.

(** The state and world a handler leaves behind. *)
Definition exec {A : Type} (m : Action A) (s : State) (w : World)
  : State * World :=
  let '(_, s', w') := m s w in (s', w').

Definition modify (f : State -> State) : Action unit :=
  fun s w => (tt, f s, w).

Definition emit (f : World -> World) : Action unit :=
  fun s w => (tt, s, f w).

(** The current value of a cell, for functional updates
    [setX(prev => ...)]. *)
Definition current {A : Type} (f : State -> A) : Action A :=
  fun s w => (f s, s, w).

Definition setMics v := modify (upd_mics v).
Definition setCameras v := modify (upd_cameras v).
Definition setSpeakers v := modify (upd_speakers v).
Definition setSelectedMicId v := modify (upd_selectedMicId v).
Definition setSelectedCameraId v := modify (upd_selectedCameraId v).
Definition setSelectedSpeakerId v := modify (upd_selectedSpeakerId v).
Definition setIsScreenSharing v := modify (upd_isScreenSharing v).
Definition setShowScreenPickerModal v := modify (upd_showScreenPickerModal v).
Definition setAvailableScreens v := modify (upd_availableScreens v).
Definition setChatInput v := modify (upd_chatInput v).
Definition setShowStickerPicker v := modify (upd_showStickerPicker v).
Definition setChatMessages v := modify (upd_chatMessages v).
Definition setTranslationLogs v := modify (upd_translationLogs v).
Definition setParticipants v := modify (upd_participants v).

Definition toast (t : Toast) : Action unit :=
  emit (fun w => upd_toasts (toasts w ++ [t]) w).

Definition console (c : ConsoleEntry) : Action unit :=
  emit (fun w => upd_consoleLog (consoleLog w ++ [c]) w).

Definition transport (c : TransportCall) : Action unit :=
  emit (fun w => upd_transportCalls (transportCalls w ++ [c]) w).

Definition navigate (path : string) : Action unit :=
  emit (fun w => upd_navigated (navigated w ++ [path]) w).

(** [(window as any).ipcRenderer?.selectScreenSource(id)]: nothing is sent
    when the bridge is absent. *)
Definition ipc_selectScreenSource (env : Env) (id : option string)
  : Action unit :=
  if ipcRenderer env
  then emit (fun w => upd_ipcSent (ipcSent w ++ [selectScreenSource id]) w)
  else ret tt.

(** ** Device sync *)

Definition ofKind (k : MediaDeviceKind) (all : list MediaDeviceInfo)
  : list MediaDeviceInfo :=
  filter (fun d => MediaDeviceKind_eqb (kind d) k) all.

Definition findDevice (l : list MediaDeviceInfo) (id : string)
  : option MediaDeviceInfo :=
  find (fun d => String.eqb (deviceId d) id) l.

Definition isSome {A : Type} (o : option A) : bool :=
  match o with Some _ => true | None => false end.

(** [if (l.length && !l.find(d => d.deviceId === t)) t = l[0].deviceId]:
    the id the class ends up with, from the candidate [t]. *)
Definition reselect (l : list MediaDeviceInfo) (t : string) : string :=
  if negb (Nat.eqb (length l) 0) && negb (isSome (findDevice l t))
  then match nth_error l 0 with
       | Some d => deviceId d
       | None => t
       end
  else t.

(** [syncDevices], after the permission probe and the enumeration have
    returned [all].  The probe ([ensureMediaPermission]) swallows its own
    failure and leaves no trace in the state.  [r] is the render whose
    effect installed this function: it is called once when the settings
    panel opens and then, through the [devicechange] listener, on every
    hot-plug, each time with the same closure. *)
Definition syncDevices (env : Env) (r : State) (all : list MediaDeviceInfo)
  : Action unit :=
  let micList := ofKind audioinput all in
  let camList := ofKind videoinput all in
  let spkList := ofKind audiooutput all in
  setMics micList ;; setCameras camList ;; setSpeakers spkList ;;
  match room env with
  | Some rm =>
      let tm := JS.or_undef (getActiveDevice rm audioinput) (selectedMicId r) in
      let tc := JS.or_undef (getActiveDevice rm videoinput) (selectedCameraId r) in
      let ts := JS.or_undef (getActiveDevice rm audiooutput) (selectedSpeakerId r) in
      let tm := reselect micList tm in
      let tc := reselect camList tc in
      let ts := reselect spkList ts in
      setSelectedMicId tm ;; setSelectedCameraId tc ;; setSelectedSpeakerId ts
  | None => ret tt
  end.

(** The cell and the list that belong to a device class. *)
Definition selectedId (k : MediaDeviceKind) (s : State) : string :=
  match k with
  | audioinput => selectedMicId s
  | videoinput => selectedCameraId s
  | audiooutput => selectedSpeakerId s
  end.

Definition devicesOf (k : MediaDeviceKind) (s : State) : list MediaDeviceInfo :=
  match k with
  | audioinput => mics s
  | videoinput => cameras s
  | audiooutput => speakers s
  end.

(** ** Screen share *)

(** The effect on [[localParticipant, tracks]]: it runs after every change
    of the transport's track set. *)
Definition screenShareEffect (env : Env) : Action unit :=
  match localParticipant env with
  | Some lp => setIsScreenSharing (isScreenShareEnabled lp)
  | None => ret tt
  end.

(** The callback given to [ipcRenderer.onOpenScreenPicker].  It is
    registered only when [window.ipcRenderer] exists. *)
Definition onOpenScreenPicker (sources : list ScreenSource.t) : Action unit :=
  setAvailableScreens sources ;;
  setShowScreenPickerModal true.

(** [e.name === 'NotAllowedError' || e.message?.includes('Permission denied')] *)
Definition isCancellation (e : JsError) : bool :=
  match err_name e with
  | Some n => String.eqb n "NotAllowedError"
  | None => false
  end
  || match err_message e with
     | Some m => JS.includes m "Permission denied"
     | None => false
     end.

(** [toggleScreenShare] up to its [await]: the result is the [newState] of
    the call now in flight, or [None] when the handler returned early. *)
Definition toggleScreenShare_call (env : Env) (r : State)
  : Action (option bool) :=
  match localParticipant env with
  | None =>
      toast (toast_error "ユーザー情報が取得できません") ;;
      ret None
  | Some _ =>
      let newState := negb (isScreenSharing r) in
      transport (setScreenShareEnabled newState false) ;;
      ret (Some newState)
  end.

(** [toggleScreenShare] from its [await] on. *)
Definition toggleScreenShare_settled (newState : bool) (res : Settled unit)
  : Action unit :=
  match res with
  | Fulfilled _ => setIsScreenSharing newState
  | Rejected e =>
      console (console_warn "Screen share failed:" e) ;;
      (if isCancellation e
       then toast (toast_info "キャンセルしました")
       else toast (toast_error "画面共有を開始できませんでした")) ;;
      setIsScreenSharing false
  end.

(** The whole handler, when nothing else runs while the call is in
    flight. *)
Definition toggleScreenShare (env : Env) (r : State) (res : Settled unit)
  : Action unit :=
  pending <- toggleScreenShare_call env r ;;
  match pending with
  | Some newState => toggleScreenShare_settled newState res
  | None => ret tt
  end.

Definition handleScreenSelect (env : Env) (id : string) : Action unit :=
  ipc_selectScreenSource env (Some id) ;;
  setShowScreenPickerModal false.

Definition handleScreenPickerCancel (env : Env) : Action unit :=
  ipc_selectScreenSource env None ;;
  setShowScreenPickerModal false ;;
  setIsScreenSharing false.

(** ** Device switch *)

(** [handleDeviceChange] up to its [await]: [true] when the call was
    issued. *)
Definition handleDeviceChange_call (env : Env) (k : MediaDeviceKind)
  (id : string) : Action bool :=
  match room env with
  | None => ret false
  | Some _ => transport (switchActiveDevice k id) ;; ret true
  end.

(** [handleDeviceChange] from its [await] on.  The boolean the transport
    resolves with is not looked at. *)
Definition handleDeviceChange_settled (k : MediaDeviceKind) (id : string)
  (res : Settled bool) : Action unit :=
  match res with
  | Fulfilled _ =>
      (if MediaDeviceKind_eqb k audioinput then setSelectedMicId id
       else ret tt) ;;
      (if MediaDeviceKind_eqb k videoinput then setSelectedCameraId id
       else ret tt) ;;
      (if MediaDeviceKind_eqb k audiooutput then setSelectedSpeakerId id
       else ret tt) ;;
      toast (toast_success "デバイスを変更しました")
  | Rejected e =>
      console (console_error e) ;;
      toast (toast_error "切り替えに失敗しました")
  end.

Definition handleDeviceChange (env : Env) (k : MediaDeviceKind) (id : string)
  (res : Settled bool) : Action unit :=
  issued <- handleDeviceChange_call env k id ;;
  if issued then handleDeviceChange_settled k id res else ret tt.

(** ** Chat *)

(** The clock as a handler reads it: [now] is what [Date.now()] returns,
    [date] the time value of [new Date()]. *)
Record Clock := { now : Z; date : Date }.

Definition handleSendChat (env : Env) (r : State) (c : Clock) : Action unit :=
  if JS.truthy (JS.trim (chatInput r))
  then
    setChatMessages
      (chatMessages r ++
       [ {| ChatMessage.id := JS.Number_toString (now c);
            ChatMessage.sender := User.name (currentUser env);
            ChatMessage.message := chatInput r;
            ChatMessage.timestamp := date c;
            ChatMessage.isAI := None;
            ChatMessage.fileUrl := None |} ]) ;;
    setChatInput []
  else ret tt.

(** The [onchange] callback of the file input that [handleFileAttach]
    opens: [file] is [e.target.files[0]], [fileUrl] what
    [URL.createObjectURL] returns for it. *)
Definition handleFileAttach_onchange (env : Env) (file : option JS.text)
  (fileUrl : string) (c : Clock) : Action unit :=
  match file with
  | Some fileName =>
      let newMessage :=
        {| ChatMessage.id := JS.Number_toString (now c);
           ChatMessage.sender := User.name (currentUser env);
           ChatMessage.message := fileName;
           ChatMessage.fileUrl := Some fileUrl;
           ChatMessage.timestamp := date c;
           ChatMessage.isAI := Some false |} in
      prev <- current chatMessages ;;
      setChatMessages (prev ++ [newMessage])
  | None => ret tt
  end.

Definition handleStickerSelect (env : Env) (r : State) (sticker : JS.text)
  (c : Clock) : Action unit :=
  setChatMessages
    (chatMessages r ++
     [ {| ChatMessage.id := JS.Number_toString (now c);
          ChatMessage.sender := User.name (currentUser env);
          ChatMessage.message := sticker;
          ChatMessage.timestamp := date c;
          ChatMessage.isAI := None;
          ChatMessage.fileUrl := None |} ]) ;;
  setShowStickerPicker false.

(** ** End of the meeting *)

(** [Date.prototype.toISOString], for the valid dates that [new Date()]
    gives. *)
Module ISO.

Fixpoint zeros (n : nat) : string :=
  match n with
  | O => ""
  | S k => "0" ++ zeros k
  end.

(** Decimal digits of a non-negative number, padded to [width]. *)
Definition pad (width : nat) (n : Z) : string :=
  let d := JS.Number_toString n in
  zeros (width - String.length d) ++ d.

(** Year, month and day of the day number [z] (days since 1970-01-01) in
    the proleptic Gregorian calendar. *)
Definition civil (z : Z) : Z * Z * Z :=
  let z := (z + 719468)%Z in
  let era := (z / 146097)%Z in
  let doe := (z - era * 146097)%Z in
  let yoe := ((doe - doe / 1460 + doe / 36524 - doe / 146096) / 365)%Z in
  let doy := (doe - (365 * yoe + yoe / 4 - yoe / 100))%Z in
  let mp := ((5 * doy + 2) / 153)%Z in
  let d := (doy - (153 * mp + 2) / 5 + 1)%Z in
  let m := (if mp <? 10 then mp + 3 else mp - 9)%Z in
  let y := (yoe + era * 400 + (if m <=? 2 then 1 else 0))%Z in
  (y, m, d).

Definition year (y : Z) : string :=
  if ((0 <=? y) && (y <=? 9999))%Z then pad 4 y
  else (if (y <? 0)%Z then "-" else "+") ++ pad 6 (Z.abs y).

Definition toISOString (t : Date) : string :=
  let ms := (t mod 86400000)%Z in
  let '(y, m, d) := civil (t / 86400000)%Z in
  year y ++ "-" ++ pad 2 m ++ "-" ++ pad 2 d ++ "T"
  ++ pad 2 (ms / 3600000)%Z ++ ":" ++ pad 2 (ms / 60000 mod 60)%Z ++ ":"
  ++ pad 2 (ms / 1000 mod 60)%Z ++ "." ++ pad 3 (ms mod 1000)%Z ++ "Z".

End ISO.

Definition Lang_toString (l : Lang) : string :=
  match l with ja => "ja" | ko => "ko" end.

(** The world as a handler reads it. *)
Definition localStorage_getItem_meetings
  : Action (option (list MeetingRecord.t)) :=
  fun s w => (storedMeetings w, s, w).

(** The object literal [meetingRecord] of [confirmEndMeeting]; [date c] is
    [endTime], [now c] the [Date.now()] of the record id. *)
Definition meetingRecord (env : Env) (r : State) (c : Clock)
  : MeetingRecord.t :=
  {| MeetingRecord.id := JS.Number_toString (now c);
     MeetingRecord.title := meetingTitle env;
     MeetingRecord.startTime := ISO.toISOString (startTime env);
     MeetingRecord.endTime := ISO.toISOString (date c);
     MeetingRecord.participants :=
       {| MeetingRecord.p_id := "me";
          MeetingRecord.p_name := User.name (currentUser env);
          MeetingRecord.p_language := User.language (currentUser env) |}
       :: map (fun p =>
                 {| MeetingRecord.p_id := Participant.id p;
                    MeetingRecord.p_name := Participant.name p;
                    MeetingRecord.p_language :=
                      Some (JS.or_undef
                              (option_map Lang_toString (Participant.language p))
                              "ja") |})
              (participants r);
     MeetingRecord.translationLog :=
       map (fun log =>
              {| MeetingRecord.t_id := TranslationLog.id log;
                 MeetingRecord.t_speaker := TranslationLog.speaker log;
                 MeetingRecord.t_originalText := TranslationLog.originalText log;
                 MeetingRecord.t_translatedText :=
                   TranslationLog.translatedText log;
                 MeetingRecord.t_originalLang :=
                   match TranslationLog.originalLang log with
                   | ja => "🇯🇵 日本語"
                   | ko => "🇰🇷 한국어"
                   end;
                 MeetingRecord.t_translatedLang :=
                   match TranslationLog.originalLang log with
                   | ja => "🇰🇷 한국어"
                   | ko => "🇯🇵 日本語"
                   end;
                 MeetingRecord.t_timestamp :=
                   ISO.toISOString (TranslationLog.timestamp log) |})
           (translationLogs r);
     MeetingRecord.chatMessages :=
       map (fun msg =>
              {| MeetingRecord.c_id := ChatMessage.id msg;
                 MeetingRecord.c_userName := ChatMessage.sender msg;
                 MeetingRecord.c_message := ChatMessage.message msg;
                 MeetingRecord.c_timestamp :=
                   ISO.toISOString (ChatMessage.timestamp msg);
                 MeetingRecord.c_isAI := ChatMessage.isAI msg |})
           (chatMessages r);
     MeetingRecord.summary_ :=
       {| MeetingRecord.keyPoints :=
            [ "プロジェクトの進捗状況について全体的な共有が行われました";
              "次期スプリントの計画とマイルストーンが確認されました";
              "日韓チーム間のコラボレーションが順調に進んでいることが報告されました";
              "技術的な課題について建設的な議論が行われました" ];
          MeetingRecord.actionItems :=
            [ ("次回ミーティングまでに各チームがタスクを完了する（"
               ++ JS.or_undef (option_map Participant.name
                                 (nth_error (participants r) 0)) "担当者A"
               ++ "）")%string;
              ("KPI レポートを作成し共有する（"
               ++ JS.or_undef (option_map Participant.name
                                 (nth_error (participants r) 1)) "担当者B"
               ++ "）")%string;
              ("デザインレビューを実施する（" ++ User.name (currentUser env)
               ++ "）")%string;
              "技術ドキュメントを更新する（Uri-Tomo AI）" ];
          MeetingRecord.decisions :=
            [ "次期スプリントのリリース日を2週間後に設定";
              "隔週で日韓合同ミーティングを継続実施";
              "Uri-TomoのAI翻訳機能を全プロジェクトに展開" ] |} |}.

(** [confirmEndMeeting].  The [meetings] entry of the local storage is kept
    as the list it encodes; an absent entry reads as the empty list. *)
Definition confirmEndMeeting (env : Env) (r : State) (c : Clock)
  : Action unit :=
  let record := meetingRecord env r c in
  stored <- localStorage_getItem_meetings ;;
  let savedMeetings := match stored with Some l => l | None => [] end in
  let updatedMeetings := savedMeetings ++ [record] in
  emit (upd_storedMeetings (Some updatedMeetings)) ;;
  navigate ("/minutes/" ++ MeetingRecord.id record).

(** ** The first render *)

Record InitialDevices := {
  audioInputId : option string;
  videoInputId : option string;
  audioOutputId : option string
}.

(** The initial values of the state cells. *)
Definition initialState (initialDevices : option InitialDevices) : State :=
  let pick (f : InitialDevices -> option string) :=
    JS.or_undef (match initialDevices with Some d => f d | None => None end) ""
  in
  {| mics := []; cameras := []; speakers := [];
     selectedMicId := pick audioInputId;
     selectedCameraId := pick videoInputId;
     selectedSpeakerId := pick audioOutputId;
     isScreenSharing := false;
     showScreenPickerModal := false;
     availableScreens := [];
     chatInput := [];
     showStickerPicker := false;
     chatMessages := [];
     translationLogs := [];
     participants := [] |}.

(** The mount effect fills the roster and the translation log with sample
    entries; [now1] and [now2] are its two [Date.now()] readings. *)
Definition mountEffect (now1 now2 : Z) : Action unit :=
  setParticipants
    [ {| Participant.id := "1"; Participant.name := "User A";
         Participant.isVideoOn := true; Participant.isMuted := false;
         Participant.isSpeaking := None; Participant.language := Some ja |};
      {| Participant.id := "2"; Participant.name := "User B";
         Participant.isVideoOn := true; Participant.isMuted := false;
         Participant.isSpeaking := None; Participant.language := Some ko |} ] ;;
  setTranslationLogs
    [ {| TranslationLog.id := "1"; TranslationLog.speaker := "User A";
         TranslationLog.originalText := "プロジェクトの進捗について報告します";
         TranslationLog.translatedText := "프로젝트 진행 상황에 대해 보고합니다";
         TranslationLog.originalLang := ja;
         TranslationLog.timestamp := (now1 - 5000)%Z |};
      {| TranslationLog.id := "2"; TranslationLog.speaker := "User B";
         TranslationLog.originalText :=
           "감사합니다. 다음 단계에 대해 논의하고 싶습니다";
         TranslationLog.translatedText :=
           "ありがとうございます。次のステップについて議論したいです";
         TranslationLog.originalLang := ko;
         TranslationLog.timestamp := (now2 - 3000)%Z |} ].

Definition emptyWorld : World :=
  {| toasts := []; ipcSent := []; transportCalls := []; consoleLog := [];
     storedMeetings := None; navigated := [] |}.

(** ** The controller as a machine over its events *)

(** State cells, world, and the [newState] of every
    [setScreenShareEnabled] call that has not settled yet, oldest first. *)
Record Sys := {
  cells : State;
  world : World;
  inFlight : list bool
}.

Inductive Event :=
| TracksChanged
| OpenScreenPicker (sources : list ScreenSource.t)
| ClickShare
| ShareSettled (res : Settled unit)
| PickScreen (id : string)
| CancelPicker
| SettingsOpened (all : list MediaDeviceInfo)
| SwitchDevice (k : MediaDeviceKind) (id : string) (res : Settled bool)
| TypeChat (input : JS.text)
| SendChat (c : Clock)
| PickSticker (sticker : JS.text) (c : Clock)
| AttachFile (file : option JS.text) (fileUrl : string) (c : Clock)
| EndMeeting (c : Clock).

Definition perform (m : Action unit) (y : Sys) : Sys :=
  let '(s, w) := exec m (cells y) (world y) in
  {| cells := s; world := w; inFlight := inFlight y |}.

(** One event.  React renders again after each of them, so a handler called
    from the page closes over the current cells.  The picker buttons exist
    only while the picker is shown, and the host's picker request is heard
    only when the bridge exists. *)
Definition step (env : Env) (ev : Event) (y : Sys) : Sys :=
  match ev with
  | TracksChanged => perform (screenShareEffect env) y
  | OpenScreenPicker sources =>
      if ipcRenderer env then perform (onOpenScreenPicker sources) y else y
  | ClickShare =>
      let '(pending, s, w) :=
        toggleScreenShare_call env (cells y) (cells y) (world y) in
      {| cells := s; world := w;
         inFlight := match pending with
                     | Some newState => inFlight y ++ [newState]
                     | None => inFlight y
                     end |}
  | ShareSettled res =>
      match inFlight y with
      | newState :: rest =>
          let '(s, w) :=
            exec (toggleScreenShare_settled newState res) (cells y) (world y) in
          {| cells := s; world := w; inFlight := rest |}
      | [] => y
      end
  | PickScreen id =>
      if showScreenPickerModal (cells y)
      then perform (handleScreenSelect env id) y else y
  | CancelPicker =>
      if showScreenPickerModal (cells y)
      then perform (handleScreenPickerCancel env) y else y
  | SettingsOpened all => perform (syncDevices env (cells y) all) y
  | SwitchDevice k id res => perform (handleDeviceChange env k id res) y
  | TypeChat input => perform (setChatInput input) y
  | SendChat c => perform (handleSendChat env (cells y) c) y
  | PickSticker sticker c => perform (handleStickerSelect env (cells y) sticker c) y
  | AttachFile file fileUrl c =>
      perform (handleFileAttach_onchange env file fileUrl c) y
  | EndMeeting c => perform (confirmEndMeeting env (cells y) c) y
  end.

(** A run: each event with the environment it happens in. *)
Fixpoint run (tr : list (Env * Event)) (y : Sys) : Sys :=
  match tr with
  | [] => y
  | (env, ev) :: rest => run rest (step env ev y)
  end.

(** The controller after its first render and mount effect. *)
Definition start (initialDevices : option InitialDevices) (now1 now2 : Z)
  : Sys :=
  perform (mountEffect now1 now2)
    {| cells := initialState initialDevices; world := emptyWorld;
       inFlight := [] |}.

(** The clock reading an event stamps its chat entry with, if it appends
    one. *)
Definition stamp (ev : Event) : option Date :=
  match ev with
  | SendChat c | PickSticker _ c | AttachFile _ _ c => Some (date c)
  | _ => None
  end.

(** The clock readings of a run, one for each event that can append. *)
Definition stamps (tr : list (Env * Event)) : list Date :=
  flat_map (fun ee => match stamp (snd ee) with
                      | Some t => [t]
                      | None => []
                      end) tr.

(** The transport's own screen-share state, when there is a local
    participant to ask. *)
Definition transportSharing (env : Env) : option bool :=
  option_map isScreenShareEnabled (localParticipant env).

(** ** Sample data for the concrete runs below *)

Module Sample.

Definition user : User.t :=
  {| User.name := "Mina"; User.language := Some "ko" |}.

(** A room that reports no active device. *)
Definition quietRoom : Room := {| getActiveDevice := fun _ => None |}.


Definition env (rm : option Room) (sharing : bool) (ipc : bool) : Env :=
  {| room := rm;
     localParticipant := Some {| isScreenShareEnabled := sharing |};
     ipcRenderer := ipc;
     currentUser := user;
     meetingTitle := "日韓プロジェクト会議";
     startTime := 1700000000000%Z |}.



(** The cells of a first render that was given [mic-gone] as the
    microphone to use. *)
Definition cells0 : State :=
  initialState (Some {| audioInputId := Some "mic-gone";
                        videoInputId := None;
                        audioOutputId := None |}).

Definition screen1 : ScreenSource.t :=
  {| ScreenSource.id := "screen-1"; ScreenSource.name := "Entire screen";
     ScreenSource.thumbnail := "data:image/png;base64,AAAA" |}.

(** The code units of an ASCII literal. *)
Definition ascii_text (s : string) : JS.text :=
  map (fun a => N_of_ascii a) (list_ascii_of_string s).

Definition hello : JS.text := ascii_text "hello".

Definition clock (t : Z) : Clock := {| now := t; date := t |}.

Definition permissionDenied : JsError :=
  {| err_name := Some "NotAllowedError";
     err_message := Some "Permission denied by system" |}.

Definition publishFailed : JsError :=
  {| err_name := Some "PublishTrackError";
     err_message := Some "publish timed out" |}.

End Sample.

(** ** Duration *)

(** The interval callback of the mount effect: [setDuration(p => p + 1)],
    once a second. *)
Definition tick (duration : N) : N := (duration + 1)%N.

(** [formatDuration], on the whole seconds the counter holds. *)
Definition formatDuration (s : N) : string :=
  ISO.pad 2 (Z.of_N (s / 60)) ++ ":" ++ ISO.pad 2 (Z.of_N (s mod 60)).

(** ** Tracks *)

Module Track.
Inductive Source :=
| Camera | Microphone | ScreenShare | ScreenShareAudio | Unknown.

Definition Source_eqb (a b : Source) : bool :=
  match a, b with
  | Camera, Camera | Microphone, Microphone | ScreenShare, ScreenShare
  | ScreenShareAudio, ScreenShareAudio | Unknown, Unknown => true
  | _, _ => false
  end.

Record Participant := { identity : string; isLocal : bool }.

(** A track reference, as far as the hook looks into it. *)
Record Ref := { participant : Participant; source : Source }.
End Track.

Definition localCameraTrack (tracks : list Track.Ref) : option Track.Ref :=
  find (fun t => Track.isLocal (Track.participant t)
                 && Track.Source_eqb (Track.source t) Track.Camera) tracks.

Definition localScreenTrack (tracks : list Track.Ref) : option Track.Ref :=
  find (fun t => Track.isLocal (Track.participant t)
                 && Track.Source_eqb (Track.source t) Track.ScreenShare) tracks.

Definition remoteTracks (tracks : list Track.Ref) : list Track.Ref :=
  filter (fun t => negb (Track.isLocal (Track.participant t))) tracks.

(** ** Microphone and camera switches *)

(** [initialSettings] as it arrives at run time: the page passes on what
    the route state holds, which may lack either field. *)
Module InitialSettings.
Record t := { isMicOn : option bool; isVideoOn : option bool }.
End InitialSettings.

(** The cells [isMicOn] and [isVideoOn]. *)
Record MediaCells := { isMicOn : bool; isVideoOn : bool }.

(** [initialSettings?.isMicOn ?? true] and the same for the camera. *)
Definition initialMedia (initialSettings : option InitialSettings.t)
  : MediaCells :=
  let get (f : InitialSettings.t -> option bool) :=
    match match initialSettings with Some i => f i | None => None end with
    | Some b => b
    | None => true
    end in
  {| isMicOn := get InitialSettings.isMicOn;
     isVideoOn := get InitialSettings.isVideoOn |}.

Inductive MediaCall :=
| setMicrophoneEnabled (enabled : bool)
| setCameraEnabled (enabled : bool).

(** [toggleMic]: the cell is written first, then the transport is asked;
    the outcome of the call is not awaited by anything.  The result is
    the cells after the handler and the calls it made. *)
Definition toggleMic (env : Env) (r s : MediaCells)
  : MediaCells * list MediaCall :=
  let newState := negb (isMicOn r) in
  ({| isMicOn := newState; isVideoOn := isVideoOn s |},
   match localParticipant env with
   | Some _ => [setMicrophoneEnabled newState]
   | None => []
   end).

Definition toggleVideo (env : Env) (r s : MediaCells)
  : MediaCells * list MediaCall :=
  let newState := negb (isVideoOn r) in
  ({| isMicOn := isMicOn s; isVideoOn := newState |},
   match localParticipant env with
   | Some _ => [setCameraEnabled newState]
   | None => []
   end).

Inductive MediaEvent := ClickMic | ClickVideo.

(** A series of clicks on the two buttons, each handled by the render that
    follows the previous one; the calls made are collected in order. *)
Fixpoint mediaRun (env : Env) (clicks : list MediaEvent) (s : MediaCells)
  : MediaCells * list MediaCall :=
  match clicks with
  | [] => (s, [])
  | ev :: rest =>
      let '(s1, calls1) :=
        match ev with
        | ClickMic => toggleMic env s s
        | ClickVideo => toggleVideo env s s
        end in
      let '(s2, calls2) := mediaRun env rest s1 in
      (s2, calls1 ++ calls2)
  end.

Definition micClicks (clicks : list MediaEvent) : nat :=
  length (filter (fun ev => match ev with
                            | ClickMic => true
                            | ClickVideo => false
                            end) clicks).

(** The arguments of the microphone requests among [calls], in order. *)
Definition micRequests (calls : list MediaCall) : list bool :=
  flat_map (fun c => match c with
                     | setMicrophoneEnabled b => [b]
                     | setCameraEnabled _ => []
                     end) calls.

(** ** The sticker buttons of the page *)

(** The stickers the page offers, as code units. *)
Definition stickers : list JS.text :=
  [ [0xD83D; 0xDC4D]; [0xD83D; 0xDC4F]; [0xD83D; 0xDE0A]; [0x2764; 0xFE0F];
    [0xD83C; 0xDF89]; [0x2728]; [0xD83D; 0xDCA1]; [0xD83D; 0xDD25];
    [0xD83D; 0xDC4C]; [0xD83D; 0xDE4C]; [0xD83D; 0xDCAA]; [0xD83D; 0xDE80];
    [0x2B50]; [0x2705]; [0xD83D; 0xDCCC] ]%N.

(** The [onClick] of a sticker button: the sticker goes to the end of the
    input, it is not sent.  (The callback then puts the focus back into
    the input, which no cell records.) *)
Definition stickerButton_onClick (r : State) (sticker : JS.text)
  : Action unit :=
  let newValue := chatInput r ++ sticker in
  setChatInput newValue ;;
  setShowStickerPicker false.

(** ** The page wrapper [ActiveMeeting] *)

Module Wrapper.

(** [location.state], of which the wrapper reads these fields. *)
Record LocationState := {
  livekitToken : option string;
  livekitUrl : option string;
  participantName : option string;
  initialMicOn : option bool;
  initialVideoOn : option bool;
  audioDeviceId : option string;
  videoDeviceId : option string;
  audioOutputDeviceId : option string
}.

(** A field of [location.state || {}]. *)
Definition field {A : Type} (st : option LocationState)
  (f : LocationState -> option A) : option A :=
  match st with
  | Some s => f s
  | None => None
  end.

Definition truthy (o : option string) : bool :=
  match o with
  | Some s => negb (String.eqb s "")
  | None => false
  end.

Definition isTrue (o : option bool) : bool :=
  match o with
  | Some b => b
  | None => false
  end.

(** [!livekitToken || !livekitUrl] *)
Definition noConnection (st : option LocationState) : bool :=
  negb (truthy (field st livekitToken)) || negb (truthy (field st livekitUrl)).

(** An [id] inside a template literal. *)
Definition template (id : option string) : string :=
  match id with
  | Some s => s
  | None => "undefined"
  end.

(** The effect of the wrapper. *)
Definition effect (id : option string) (st : option LocationState)
  : Action unit :=
  if noConnection st
  then toast (toast_error "接続情報がありません。") ;;
       navigate ("/meeting-setup/" ++ template id)
  else ret tt.

(** The [video] and [audio] options given to the room. *)
Inductive Capture :=
| capture_false
| capture_device (deviceId : option string).

(** What the wrapper hands to the room and to the page content. *)
Record Props := {
  token : string;
  serverUrl : string;
  video : Capture;
  audio : Capture;
  meetingId : string;
  currentUserProp : User.t;
  devices : InitialDevices;
  initialSettings : InitialSettings.t
}.

(** What the wrapper renders: nothing, or the room with the content. *)
Definition render (id : option string) (st : option LocationState)
  : option Props :=
  if noConnection st then None
  else
    Some
      {| token := JS.or_undef (field st livekitToken) "";
         serverUrl := JS.or_undef (field st livekitUrl) "";
         video := if isTrue (field st initialVideoOn)
                  then capture_device (field st videoDeviceId)
                  else capture_false;
         audio := if isTrue (field st initialMicOn)
                  then capture_device (field st audioDeviceId)
                  else capture_false;
         meetingId := JS.or_undef id "";
         currentUserProp :=
           {| User.name := JS.or_undef (field st participantName) "Me";
              User.language := Some "ja" |};
         devices :=
           {| audioInputId := field st audioDeviceId;
              videoInputId := field st videoDeviceId;
              audioOutputId := field st audioOutputDeviceId |};
         initialSettings :=
           {| InitialSettings.isMicOn := field st initialMicOn;
              InitialSettings.isVideoOn := field st initialVideoOn |} |}.

End Wrapper.

(** ** Counting over runs *)

(** The meetings the local storage holds. *)
Definition savedMeetings (w : World) : list MeetingRecord.t :=
  match storedMeetings w with
  | Some l => l
  | None => []
  end.

(** How often the host asked for the picker during a run. *)
Definition pickerRequests (tr : list (Env * Event)) : nat :=
  length (filter (fun ee => match snd ee with
                            | OpenScreenPicker _ => true
                            | _ => false
                            end) tr).

(** The source list of the last picker request that was heard during a
    run, [before] if there was none. *)
Definition lastRequest (tr : list (Env * Event))
  (before : list ScreenSource.t) : list ScreenSource.t :=
  fold_left (fun acc ee =>
               match snd ee with
               | OpenScreenPicker sources =>
                   if ipcRenderer (fst ee) then sources else acc
               | _ => acc
               end) tr before.

(** How often the meeting was ended during a run. *)
Definition meetingsEnded (tr : list (Env * Event)) : nat :=
  length (filter (fun ee => match snd ee with
                            | EndMeeting _ => true
                            | _ => false
                            end) tr).

(** The clock an event reads, if it appends to the chat. *)
Definition reading (ev : Event) : option Clock :=
  match ev with
  | SendChat c | PickSticker _ c | AttachFile _ _ c => Some c
  | _ => None
  end.

(** The page shows a message on the user's side when
    [msg.sender === currentUser.name]. *)
Definition isOwn (env : Env) (msg : ChatMessage.t) : bool :=
  String.eqb (ChatMessage.sender msg) (User.name (currentUser env)).

Module Scene.

Definition me : Track.Participant :=
  {| Track.identity := "mina"; Track.isLocal := true |}.
Definition guest : Track.Participant :=
  {| Track.identity := "taro"; Track.isLocal := false |}.

Definition tracks : list Track.Ref :=
  [ {| Track.participant := guest; Track.source := Track.Camera |};
    {| Track.participant := me; Track.source := Track.ScreenShare |};
    {| Track.participant := me; Track.source := Track.Camera |};
    {| Track.participant := guest; Track.source := Track.ScreenShare |} ].

(** A route state with a connection but no word on microphone or
    camera. *)
Definition bare : Wrapper.LocationState :=
  {| Wrapper.livekitToken := Some "tok";
     Wrapper.livekitUrl := Some "wss://example.test";
     Wrapper.participantName := None;
     Wrapper.initialMicOn := None;
     Wrapper.initialVideoOn := Some false;
     Wrapper.audioDeviceId := Some "mic-1";
     Wrapper.videoDeviceId := None;
     Wrapper.audioOutputDeviceId := None |}.

End Scene.

(** * Properties *)

(** Unfolds a handler applied to cells and world down to the record
    updates it performs. *)
Ltac run_handler :=
  unfold step, perform, exec, handleScreenSelect, handleScreenPickerCancel,
    onOpenScreenPicker, screenShareEffect, toggleScreenShare,
    toggleScreenShare_call, toggleScreenShare_settled, handleDeviceChange,
    handleDeviceChange_call, handleDeviceChange_settled, handleSendChat,
    handleStickerSelect, handleFileAttach_onchange, confirmEndMeeting,
    syncDevices, ipc_selectScreenSource, localStorage_getItem_meetings,
    toast, console, transport, navigate, current,
    setMics, setCameras, setSpeakers, setSelectedMicId, setSelectedCameraId,
    setSelectedSpeakerId, setIsScreenSharing, setShowScreenPickerModal,
    setAvailableScreens, setChatInput, setShowStickerPicker, setChatMessages,
    bind, ret, modify, emit in *.

(** Case analysis on the innermost condition a hypothesis still branches
    on. *)
Ltac split_cases H :=
  repeat match type of H with
    | context [match ?x with _ => _ end] =>
        lazymatch x with
        | context [match _ with _ => _ end] => fail
        | _ => destruct x eqn:?; simpl in H
        end
    end.

(** * Device sync *)

Lemma findDevice_In (l : list MediaDeviceInfo) (t : string) :
  isSome (findDevice l t) = true <-> In t (map deviceId l).
Proof.
  unfold findDevice.
  induction l as [|d l IH]; simpl.
  - split; [discriminate | tauto].
  - destruct (String.eqb_spec (deviceId d) t) as [E|E]; simpl.
    + split; auto.
    + rewrite IH. split; [auto | intros [H|H]; [contradiction | exact H]].
Qed.

Lemma reselect_empty (t : string) : reselect [] t = t.
Proof. reflexivity. Qed.

Lemma reselect_present (l : list MediaDeviceInfo) (t : string) :
  In t (map deviceId l) -> reselect l t = t.
Proof.
  intros H. apply findDevice_In in H. unfold reselect.
  rewrite H. simpl. rewrite andb_false_r. reflexivity.
Qed.

Lemma reselect_absent (d : MediaDeviceInfo) (l : list MediaDeviceInfo)
  (t : string) :
  ~ In t (map deviceId (d :: l)) -> reselect (d :: l) t = deviceId d.
Proof.
  intros H. unfold reselect.
  destruct (isSome (findDevice (d :: l) t)) eqn:E.
  - apply findDevice_In in E. contradiction.
  - reflexivity.
Qed.

Lemma reselect_member (l : list MediaDeviceInfo) (t : string) :
  l <> [] -> In (reselect l t) (map deviceId l).
Proof.
  intros Hne.
  destruct (isSome (findDevice l t)) eqn:E.
  - pose proof E as E'. apply findDevice_In in E'.
    rewrite reselect_present by exact E'. exact E'.
  - destruct l as [|d l]; [congruence|].
    rewrite reselect_absent.
    + simpl. auto.
    + intros H. apply findDevice_In in H. congruence.
Qed.

Lemma reselect_idempotent (l : list MediaDeviceInfo) (t : string) :
  reselect l (reselect l t) = reselect l t.
Proof.
  destruct l as [|d l]; [reflexivity|].
  apply reselect_present, reselect_member. discriminate.
Qed.

(** The candidate of a second pass is the active device again, or the
    id the first pass chose. *)
Lemma reselect_again (l : list MediaDeviceInfo) (a : option string)
  (prev : string) :
  reselect l (JS.or_undef a (reselect l (JS.or_undef a prev)))
  = reselect l (JS.or_undef a prev).
Proof.
  destruct a as [s|]; simpl.
  - unfold JS.or_str. destruct (String.eqb s "").
    + apply reselect_idempotent.
    + reflexivity.
  - apply reselect_idempotent.
Qed.

(** What [syncDevices] leaves in the cells. *)
Lemma syncDevices_cells (env : Env) (r : State)
  (all : list MediaDeviceInfo) (s : State) (w : World) (k : MediaDeviceKind) :
  let s' := fst (exec (syncDevices env r all) s w) in
  devicesOf k s' = ofKind k all
  /\ selectedId k s'
     = match room env with
       | Some rm =>
           reselect (ofKind k all)
             (JS.or_undef (getActiveDevice rm k) (selectedId k r))
       | None => selectedId k s
       end.
Proof.
  unfold syncDevices, exec. destruct (room env) as [rm|]; destruct k; simpl; auto.
Qed.

Lemma syncDevices_world (env : Env) (r : State)
  (all : list MediaDeviceInfo) (s : State) (w : World) :
  snd (exec (syncDevices env r all) s w) = w.
Proof.
  unfold syncDevices, exec. destruct (room env); reflexivity.
Qed.




(** C5.  Reconciling a second time against the same enumeration and the
    same active devices changes nothing, whether the second pass is the
    same listener again (same closure [r]) or the effect of a later render
    (which closes over the cells the first pass left). *)
Theorem syncDevices_idempotent (env : Env) (r : State)
  (all : list MediaDeviceInfo) (s : State) (w : World) :
  let once := exec (syncDevices env r all) s w in
  exec (syncDevices env r all) (fst once) (snd once) = once
  /\ exec (syncDevices env (fst once) all) (fst once) (snd once) = once.
Proof.
  unfold syncDevices, exec.
  destruct (room env) as [rm|]; simpl.
  - split; [reflexivity|].
    rewrite !reselect_again. reflexivity.
  - split; reflexivity.
Qed.

(** * Device switch *)




(** * Screen share *)

(** The picker is opened by the host's request only, and that request is
    heard only when the bridge exists. *)
Lemma step_picker_needs_bridge (env : Env) (ev : Event) (y : Sys) :
  (showScreenPickerModal (cells y) = true -> ipcRenderer env = true) ->
  showScreenPickerModal (cells (step env ev y)) = true ->
  ipcRenderer env = true.
Proof.
  intros IH H. destruct ev; run_handler; split_cases H; auto; congruence.
Qed.

Lemma run_picker_needs_bridge (b : bool) (tr : list (Env * Event)) (y : Sys) :
  Forall (fun ee => ipcRenderer (fst ee) = b) tr ->
  (showScreenPickerModal (cells y) = true -> b = true) ->
  showScreenPickerModal (cells (run tr y)) = true -> b = true.
Proof.
  revert y. induction tr as [|[env ev] tr IH]; intros y Hall Hy; simpl.
  - exact Hy.
  - inversion Hall as [|? ? Hb Hrest]; subst. simpl in *.
    apply IH; [exact Hrest|].
    apply step_picker_needs_bridge. exact Hy.
Qed.

Lemma start_picker_closed init n1 n2 :
  showScreenPickerModal (cells (start init n1 n2)) = false.
Proof. reflexivity. Qed.

(** What [handleScreenPickerCancel] does when the bridge exists. *)
Lemma handleScreenPickerCancel_exec (env : Env) (s : State) (w : World) :
  ipcRenderer env = true ->
  exec (handleScreenPickerCancel env) s w
  = (upd_isScreenSharing false (upd_showScreenPickerModal false s),
     upd_ipcSent (ipcSent w ++ [selectScreenSource None]) w).
Proof. intros H. run_handler. rewrite H. reflexivity. Qed.

(** A rejected share request sends nothing to the host and leaves the
    share flag off. *)
Lemma toggleScreenShare_settled_rejected (newState : bool) (e : JsError)
  (s : State) (w : World) :
  let '(s', w') := exec (toggleScreenShare_settled newState (Rejected e)) s w in
  s' = upd_isScreenSharing false s
  /\ ipcSent w' = ipcSent w
  /\ transportCalls w' = transportCalls w.
Proof. run_handler. destruct (isCancellation e); simpl; auto. Qed.

(** C3.  Whenever the picker is open after some run of the controller (a
    host-picker request is in flight), cancelling it leaves the share flag
    off and the picker closed and sends the host exactly one message, the
    null selection; when the request then settles as rejected, the
    controller stays in that state and sends the host nothing more. *)
Theorem cancel_host_picker (init : option InitialDevices) (n1 n2 : Z)
  (tr : list (Env * Event)) (env : Env) :
  Forall (fun ee => ipcRenderer (fst ee) = ipcRenderer env) tr ->
  let y := run tr (start init n1 n2) in
  showScreenPickerModal (cells y) = true ->
  let y' := step env CancelPicker y in
  (isScreenSharing (cells y') = false
   /\ showScreenPickerModal (cells y') = false)
  /\ ipcSent (world y') = ipcSent (world y) ++ [selectScreenSource None]
  /\ forall e,
       let y'' := step env (ShareSettled (Rejected e)) y' in
       isScreenSharing (cells y'') = false
       /\ showScreenPickerModal (cells y'') = false
       /\ ipcSent (world y'') = ipcSent (world y').
Proof.
  intros Hall y Hopen y'.
  assert (Hipc : ipcRenderer env = true).
  { apply (run_picker_needs_bridge (ipcRenderer env) tr (start init n1 n2));
      [exact Hall | | exact Hopen].
    rewrite start_picker_closed. discriminate. }
  assert (Ey' : y' = {| cells := upd_isScreenSharing false
                                   (upd_showScreenPickerModal false (cells y));
                        world := upd_ipcSent
                                   (ipcSent (world y) ++ [selectScreenSource None])
                                   (world y);
                        inFlight := inFlight y |}).
  { unfold y', step, perform. rewrite Hopen.
    rewrite (handleScreenPickerCancel_exec env _ _ Hipc). reflexivity. }
  rewrite Ey'. simpl. repeat split.
  all: destruct (inFlight y) as [|newState rest]; simpl; try reflexivity.
  all: pose proof (toggleScreenShare_settled_rejected newState e
         (upd_isScreenSharing false (upd_showScreenPickerModal false (cells y)))
         (upd_ipcSent (ipcSent (world y) ++ [selectScreenSource None]) (world y)))
         as Hs.
  all: destruct (exec _ _ _) as [s'' w'']; destruct Hs as (-> & Hi & _);
    simpl; auto.
Qed.

(** In the desktop shell: the user asks to share, the host opens the
    picker, the user cancels. *)
Lemma cancel_host_picker_witness :
  let env := Sample.env (Some Sample.quietRoom) false true in
  let tr := [(env, ClickShare); (env, OpenScreenPicker [Sample.screen1])] in
  let y' := step env CancelPicker (run tr (start None 0 0)) in
  (isScreenSharing (cells y') = false
   /\ showScreenPickerModal (cells y') = false)
  /\ ipcSent (world y') = [selectScreenSource None].
Proof.
  intros env tr y'.
  destruct (cancel_host_picker None 0 0 tr env) as (Hidle & Hsent & _).
  - repeat constructor.
  - reflexivity.
  - split; [exact Hidle | exact Hsent].
Defined.

(** C2 as stated fails: picking [screen-1] hands the id to the host and
    closes the picker, but the share flag is still off and the transport
    has only seen the request to enable sharing, with no source id. *)
Lemma pick_screen_is_not_yet_active :
  let env := Sample.env (Some Sample.quietRoom) false true in
  let tr := [(env, ClickShare); (env, OpenScreenPicker [Sample.screen1]);
             (env, PickScreen "screen-1")] in
  let y := run tr (start None 0 0) in
  isScreenSharing (cells y) = false
  /\ transportCalls (world y) = [setScreenShareEnabled true false]
  /\ ipcSent (world y) = [selectScreenSource (Some "screen-1")]
  /\ inFlight y = [true].
Proof. repeat split. Qed.

(** C2 (as amended).  With the host picker open for a pending request to
    turn sharing on, picking a source sends the host exactly the chosen id
    and closes the picker; it does not call the transport and does not
    touch the share flag.  The share flag turns on when the pending
    transport call is then fulfilled. *)
Theorem pick_screen_commits_to_host (env : Env) (id : string) (y : Sys)
  (rest : list bool) :
  ipcRenderer env = true ->
  showScreenPickerModal (cells y) = true ->
  inFlight y = true :: rest ->
  let y1 := step env (PickScreen id) y in
  ipcSent (world y1) = ipcSent (world y) ++ [selectScreenSource (Some id)]
  /\ transportCalls (world y1) = transportCalls (world y)
  /\ showScreenPickerModal (cells y1) = false
  /\ isScreenSharing (cells y1) = isScreenSharing (cells y)
  /\ let y2 := step env (ShareSettled (Fulfilled tt)) y1 in
     isScreenSharing (cells y2) = true
     /\ showScreenPickerModal (cells y2) = false
     /\ ipcSent (world y2) = ipcSent (world y1)
     /\ transportCalls (world y2) = transportCalls (world y1).
Proof.
  intros Hipc Hopen Hfly. run_handler.
  rewrite Hopen, Hipc. simpl. rewrite Hfly. simpl. repeat split.
Qed.

(** The user picks [screen-1]; the host is told; the transport then fulfils
    the pending call. *)
Lemma pick_screen_commits_to_host_witness :
  let env := Sample.env (Some Sample.quietRoom) false true in
  let y := run [(env, ClickShare); (env, OpenScreenPicker [Sample.screen1])]
             (start None 0 0) in
  let y1 := step env (PickScreen "screen-1") y in
  ipcSent (world y1) = [selectScreenSource (Some "screen-1")]
  /\ isScreenSharing (cells (step env (ShareSettled (Fulfilled tt)) y1)) = true.
Proof.
  intros env y y1.
  destruct (pick_screen_commits_to_host env "screen-1" y []
              eq_refl eq_refl eq_refl) as (Hsent & _ & _ & _ & Hon & _).
  split; [exact Hsent | exact Hon].
Defined.

(** C4 as stated fails: the share flag is a cell of its own that the
    handlers write.  Sharing is on; the user toggles it off; the transport
    rejects the call and goes on sharing; the handler forces the flag off.
    No track-set change follows, so the flag stays different from the
    transport's state. *)
Lemma failed_toggle_off_leaves_flag_wrong :
  let off := Sample.env (Some Sample.quietRoom) false false in
  let on := Sample.env (Some Sample.quietRoom) true false in
  let tr := [(off, ClickShare); (on, TracksChanged);
             (on, ShareSettled (Fulfilled tt)); (on, ClickShare);
             (on, ShareSettled (Rejected Sample.publishFailed))] in
  let y := run tr (start None 0 0) in
  transportSharing on = Some true
  /\ isScreenSharing (cells y) = false
  /\ transportCalls (world y)
     = [setScreenShareEnabled true false; setScreenShareEnabled false false].
Proof. repeat split. Qed.

(** C4 (as amended).  After every track-set change, with the local
    participant present, the share flag is what the transport reports.
    Asking to toggle leaves the flag as it is and puts its negation in
    flight.  When the oldest call in flight is fulfilled, the flag becomes
    the state that call asked for, so it equals the transport's state
    whenever the transport then reports what was asked. *)
Theorem share_flag_follows_transport (env : Env) (y : Sys) (b : bool) :
  transportSharing env = Some b ->
  isScreenSharing (cells (step env TracksChanged y)) = b
  /\ (isScreenSharing (cells (step env ClickShare y)) = isScreenSharing (cells y)
      /\ inFlight (step env ClickShare y)
         = inFlight y ++ [negb (isScreenSharing (cells y))])
  /\ (forall rest, inFlight y = b :: rest ->
      isScreenSharing (cells (step env (ShareSettled (Fulfilled tt)) y)) = b
      /\ inFlight (step env (ShareSettled (Fulfilled tt)) y) = rest).
Proof.
  unfold transportSharing. intros H.
  destruct (localParticipant env) as [lp|] eqn:Hlp; [|discriminate].
  injection H as H.
  repeat split; run_handler; try rewrite Hlp; simpl; auto.
  all: intros; match goal with Hf : inFlight _ = _ |- _ => rewrite Hf end;
    reflexivity.
Qed.

(** A whole cycle: off, on, off again, the flag equal to the transport's
    state after each step. *)
Lemma share_flag_follows_transport_witness :
  let off := Sample.env (Some Sample.quietRoom) false false in
  let on := Sample.env (Some Sample.quietRoom) true false in
  let y0 := start None 0 0 in
  let y1 := step off ClickShare y0 in
  let y2 := step on TracksChanged y1 in
  let y3 := step on (ShareSettled (Fulfilled tt)) y2 in
  let y4 := step on ClickShare y3 in
  let y5 := step off TracksChanged y4 in
  let y6 := step off (ShareSettled (Fulfilled tt)) y5 in
  (isScreenSharing (cells y1) = false /\ isScreenSharing (cells y2) = true
   /\ isScreenSharing (cells y3) = true)
  /\ (isScreenSharing (cells y4) = true /\ isScreenSharing (cells y5) = false
      /\ isScreenSharing (cells y6) = false /\ inFlight y6 = []).
Proof.
  intros off on y0 y1 y2 y3 y4 y5 y6.
  destruct (share_flag_follows_transport off y0 false eq_refl)
    as (_ & (H1 & _) & _).
  destruct (share_flag_follows_transport on y1 true eq_refl) as (H2 & _).
  destruct (share_flag_follows_transport on y2 true eq_refl)
    as (_ & _ & H3).
  destruct (H3 [] eq_refl) as [H3' _].
  destruct (share_flag_follows_transport on y3 true eq_refl)
    as (_ & (H4 & _) & _).
  destruct (share_flag_follows_transport off y4 false eq_refl) as (H5 & _).
  destruct (share_flag_follows_transport off y5 false eq_refl)
    as (_ & _ & H6).
  destruct (H6 [] eq_refl) as [H6' H6''].
  split; [split; [|split] | split; [|split; [|split]]].
  - exact (eq_trans H1 eq_refl).
  - exact H2.
  - exact H3'.
  - exact (eq_trans H4 H3').
  - exact H5.
  - exact H6'.
  - exact H6''.
Defined.

(** The code's test for a cancellation-class failure. *)
Lemma isCancellation_spec (e : JsError) :
  isCancellation e = true <->
  err_name e = Some "NotAllowedError"
  \/ exists m, err_message e = Some m
               /\ JS.includes m "Permission denied" = true.
Proof.
  unfold isCancellation. rewrite orb_true_iff. split.
  - intros [H|H].
    + left. destruct (err_name e) as [n|]; [|discriminate].
      apply String.eqb_eq in H. congruence.
    + right. destruct (err_message e) as [m|]; [|discriminate].
      exists m. auto.
  - intros [H|[m [Hm Hi]]].
    + left. rewrite H. reflexivity.
    + right. rewrite Hm. exact Hi.
Qed.

(** C6.  With sharing off and the local participant present,
    [toggleScreenShare] asks the transport to enable sharing, which is what
    brings up the native prompt.  Whatever the cells are when that call
    settles: if it is fulfilled the share flag is on and nothing is
    reported; if it is rejected with a cancellation-class error the flag is
    off and the user gets an informational toast; if it is rejected with
    any other error the flag is forced off and the user gets an error
    toast.  The picker stays as it was. *)
Theorem native_share_prompt (env : Env) (lp : LocalParticipant)
  (r s : State) (w : World) (s1 : State) (w1 : World) (res : Settled unit) :
  localParticipant env = Some lp ->
  isScreenSharing r = false ->
  toggleScreenShare_call env r s w
  = (Some true, s,
     upd_transportCalls
       (transportCalls w ++ [setScreenShareEnabled true false]) w)
  /\ let s' := fst (exec (toggleScreenShare_settled true res) s1 w1) in
     let w' := snd (exec (toggleScreenShare_settled true res) s1 w1) in
     showScreenPickerModal s' = showScreenPickerModal s1
     /\ match res with
        | Fulfilled _ =>
            isScreenSharing s' = true /\ toasts w' = toasts w1
        | Rejected e =>
            isScreenSharing s' = false
            /\ toasts w'
               = toasts w1
                 ++ [if isCancellation e
                     then toast_info "キャンセルしました"
                     else toast_error "画面共有を開始できませんでした"]
        end.
Proof.
  intros Hlp Hoff. split.
  - run_handler. rewrite Hlp, Hoff. reflexivity.
  - run_handler. destruct res as [v|e]; simpl.
    + auto.
    + destruct (isCancellation e); simpl; auto.
Qed.

(** The three ways the native prompt can end. *)
Lemma native_share_prompt_witness :
  let env := Sample.env (Some Sample.quietRoom) false false in
  let s0 := Sample.cells0 in
  let after res := exec (toggleScreenShare env s0 res) s0 emptyWorld in
  (isScreenSharing (fst (after (Fulfilled tt))) = true
   /\ toasts (snd (after (Fulfilled tt))) = [])
  /\ (isScreenSharing (fst (after (Rejected Sample.permissionDenied))) = false
      /\ toasts (snd (after (Rejected Sample.permissionDenied)))
         = [toast_info "キャンセルしました"])
  /\ (isScreenSharing (fst (after (Rejected Sample.publishFailed))) = false
      /\ toasts (snd (after (Rejected Sample.publishFailed)))
         = [toast_error "画面共有を開始できませんでした"]).
Proof.
  intros env s0 after.
  pose (w0 := upd_transportCalls [setScreenShareEnabled true false] emptyWorld).
  pose proof (fun res =>
    proj2 (native_share_prompt env {| isScreenShareEnabled := false |}
             s0 s0 emptyWorld s0 w0 res eq_refl eq_refl)) as H.
  split; [|split].
  - destruct (H (Fulfilled tt)) as (_ & Hon & Ht). split; [exact Hon | exact Ht].
  - destruct (H (Rejected Sample.permissionDenied)) as (_ & Hoff & Ht).
    split; [exact Hoff | exact Ht].
  - destruct (H (Rejected Sample.publishFailed)) as (_ & Hoff & Ht).
    split; [exact Hoff | exact Ht].
Defined.

(** Without the bridge the picker never opens. *)
Lemma no_bridge_no_picker (init : option InitialDevices) (n1 n2 : Z)
  (tr : list (Env * Event)) :
  Forall (fun ee => ipcRenderer (fst ee) = false) tr ->
  showScreenPickerModal (cells (run tr (start init n1 n2))) = false.
Proof.
  intros Hall.
  destruct (showScreenPickerModal (cells (run tr (start init n1 n2)))) eqn:E;
    [|reflexivity].
  symmetry.
  apply (run_picker_needs_bridge false tr (start init n1 n2) Hall);
    [|exact E].
  rewrite start_picker_closed. discriminate.
Qed.

(** * Chat *)

Lemma trimStart_blank (s : JS.text) :
  JS.trimStart s = [] <-> forallb JS.isWhiteSpace s = true.
Proof.
  induction s as [|c s IH]; simpl.
  - tauto.
  - destruct (JS.isWhiteSpace c); simpl.
    + exact IH.
    + split; discriminate.
Qed.

Lemma forallb_rev {A : Type} (f : A -> bool) (l : list A) :
  forallb f (rev l) = forallb f l.
Proof.
  induction l as [|a l IH]; simpl; [reflexivity|].
  rewrite forallb_app, IH. simpl. rewrite andb_true_r. apply andb_comm.
Qed.

Lemma trimStart_keeps_blank (s : JS.text) :
  forallb JS.isWhiteSpace (JS.trimStart s) = forallb JS.isWhiteSpace s.
Proof.
  induction s as [|c s IH]; simpl; [reflexivity|].
  destruct (JS.isWhiteSpace c) eqn:E; simpl.
  - exact IH.
  - rewrite E. reflexivity.
Qed.

(** [trim] leaves nothing exactly of the strings that are empty or all
    white space. *)
Lemma trim_blank (s : JS.text) :
  JS.truthy (JS.trim s) = negb (forallb JS.isWhiteSpace s).
Proof.
  unfold JS.trim, JS.trimEnd.
  destruct (forallb JS.isWhiteSpace s) eqn:E.
  - apply trimStart_blank in E. rewrite E. reflexivity.
  - destruct (rev (JS.trimStart (rev (JS.trimStart s)))) as [|c t] eqn:R;
      [|reflexivity].
    exfalso.
    apply (f_equal (@rev _)) in R. rewrite rev_involutive in R. simpl in R.
    apply trimStart_blank in R.
    rewrite forallb_rev, trimStart_keeps_blank in R. congruence.
Qed.

(** C10.  Sending with an input that is empty or all white space changes
    nothing at all; sending any other input appends exactly one entry, whose
    message is the input as typed, and empties the input. *)
Theorem send_chat_blank_or_not (env : Env) (c : Clock) (y : Sys) :
  let input := chatInput (cells y) in
  let y' := step env (SendChat c) y in
  (forallb JS.isWhiteSpace input = true -> y' = y)
  /\ (forallb JS.isWhiteSpace input = false ->
      exists m,
        chatMessages (cells y') = chatMessages (cells y) ++ [m]
        /\ ChatMessage.message m = input
        /\ ChatMessage.sender m = User.name (currentUser env)
        /\ ChatMessage.timestamp m = date c
        /\ chatInput (cells y') = []
        /\ world y' = world y).
Proof.
  intros input y'. unfold y', input. run_handler.
  rewrite trim_blank. split; intros H; rewrite H; simpl.
  - destruct y; reflexivity.
  - eexists. repeat split.
Qed.

(** A space, an ideographic space and a tab are not sent; [hello] is. *)
Lemma send_chat_blank_or_not_witness :
  let env := Sample.env (Some Sample.quietRoom) false false in
  let y0 := start None 0 0 in
  let spaces := step env (TypeChat [0x20; 0x3000; 0x9]%N) y0 in
  let typed := step env (TypeChat Sample.hello) y0 in
  step env (SendChat (Sample.clock 5)) spaces = spaces
  /\ exists m,
       chatMessages (cells (step env (SendChat (Sample.clock 5)) typed)) = [m]
       /\ ChatMessage.message m = Sample.hello.
Proof.
  intros env y0 spaces typed.
  split.
  - apply (send_chat_blank_or_not env (Sample.clock 5) spaces). reflexivity.
  - destruct (send_chat_blank_or_not env (Sample.clock 5) typed) as [_ H].
    destruct (H eq_refl) as (m & Hlog & Hmsg & _).
    exists m. split; [exact Hlog | exact Hmsg].
Defined.

(** Each event leaves the chat log as it was or adds one entry at its end,
    stamped with the clock reading of the event. *)
Lemma step_appends (env : Env) (ev : Event) (y : Sys) :
  chatMessages (cells (step env ev y)) = chatMessages (cells y)
  \/ exists m,
       chatMessages (cells (step env ev y)) = chatMessages (cells y) ++ [m]
       /\ stamp ev = Some (ChatMessage.timestamp m).
Proof.
  destruct ev; run_handler; simpl;
    repeat match goal with
      | |- context [match ?x with _ => _ end] =>
          lazymatch x with
          | context [match _ with _ => _ end] => fail
          | _ => destruct x eqn:?; simpl
          end
      end;
    auto; right; eexists; split; reflexivity.
Qed.


Lemma StronglySorted_app_inv {A : Type} (R : A -> A -> Prop) (a b : list A) :
  StronglySorted R (a ++ b) -> StronglySorted R a /\ StronglySorted R b.
Proof.
  induction a as [|x a IH]; simpl; intros H.
  - split; [constructor | exact H].
  - inversion H as [|? ? Hs Hall]; subst.
    destruct (IH Hs) as [Ha Hb]. split; [|exact Hb].
    constructor; [exact Ha|].
    apply Forall_app in Hall. tauto.
Qed.

Lemma StronglySorted_drop_middle {A : Type} (R : A -> A -> Prop)
  (a m b : list A) :
  StronglySorted R (a ++ m ++ b) -> StronglySorted R (a ++ b).
Proof.
  induction a as [|x a IH]; simpl; intros H.
  - apply StronglySorted_app_inv in H. tauto.
  - inversion H as [|? ? Hs Hall]; subst. constructor.
    + apply IH. exact Hs.
    + apply Forall_app in Hall. destruct Hall as [Ha Hmb].
      apply Forall_app in Hmb. apply Forall_app. tauto.
Qed.

(** Insertion order is chronological order: when the clock readings of the
    appending events do not go back, and do not go back behind the entries
    already there, the chat log stays sorted by timestamp. *)
Lemma chat_log_sorted (tr : list (Env * Event)) (y : Sys) :
  StronglySorted Z.le
    (map ChatMessage.timestamp (chatMessages (cells y)) ++ stamps tr) ->
  StronglySorted Z.le
    (map ChatMessage.timestamp (chatMessages (cells (run tr y)))).
Proof.
  revert y. induction tr as [|[env ev] tr IH]; intros y H; simpl in *.
  - rewrite app_nil_r in H. exact H.
  - apply IH.
    destruct (step_appends env ev y) as [E|[m [E Hm]]]; rewrite E.
    + apply StronglySorted_drop_middle in H. exact H.
    + rewrite Hm in H. rewrite map_app, <- app_assoc. exact H.
Qed.




(** * End of the meeting *)

(** [confirmEndMeeting] writes no cell: it stores the record after the
    meetings already saved and navigates to it. *)
Lemma confirmEndMeeting_exec (env : Env) (r : State) (c : Clock)
  (s : State) (w : World) :
  exec (confirmEndMeeting env r c) s w
  = (s,
     upd_navigated
       (navigated w ++ [("/minutes/" ++ JS.Number_toString (now c))%string])
       (upd_storedMeetings
          (Some (match storedMeetings w with Some l => l | None => [] end
                 ++ [meetingRecord env r c])) w)).
Proof. reflexivity. Qed.

(** C8.  Ending the meeting twice on the same cells, at two different
    times, stores two records after the ones already saved.  Their chat
    transcripts are equal and so are their translation transcripts.  Each
    transcript has one entry for every entry of its log, in the same
    position and with the same id, author and text. *)
Theorem finalize_twice_same_transcripts (env : Env) (c1 c2 : Clock) (y : Sys) :
  let y1 := step env (EndMeeting c1) y in
  let y2 := step env (EndMeeting c2) y1 in
  let saved := match storedMeetings (world y) with
               | Some l => l
               | None => []
               end in
  cells y2 = cells y
  /\ exists rec1 rec2,
       storedMeetings (world y2) = Some (saved ++ [rec1; rec2])
       /\ MeetingRecord.chatMessages rec1 = MeetingRecord.chatMessages rec2
       /\ MeetingRecord.translationLog rec1 = MeetingRecord.translationLog rec2
       /\ (forall i m, nth_error (chatMessages (cells y)) i = Some m ->
           exists e,
             nth_error (MeetingRecord.chatMessages rec1) i = Some e
             /\ MeetingRecord.c_id e = ChatMessage.id m
             /\ MeetingRecord.c_userName e = ChatMessage.sender m
             /\ MeetingRecord.c_message e = ChatMessage.message m
             /\ MeetingRecord.c_timestamp e
                = ISO.toISOString (ChatMessage.timestamp m))
       /\ (forall i l, nth_error (translationLogs (cells y)) i = Some l ->
           exists e,
             nth_error (MeetingRecord.translationLog rec1) i = Some e
             /\ MeetingRecord.t_id e = TranslationLog.id l
             /\ MeetingRecord.t_speaker e = TranslationLog.speaker l
             /\ MeetingRecord.t_originalText e = TranslationLog.originalText l
             /\ MeetingRecord.t_translatedText e
                = TranslationLog.translatedText l)
       /\ length (MeetingRecord.chatMessages rec1)
          = length (chatMessages (cells y))
       /\ length (MeetingRecord.translationLog rec1)
          = length (translationLogs (cells y)).
Proof.
  intros y1 y2 saved. unfold y2, y1, step, perform.
  rewrite confirmEndMeeting_exec. cbn [cells world inFlight].
  rewrite confirmEndMeeting_exec. cbn [cells world inFlight].
  split; [reflexivity|].
  exists (meetingRecord env (cells y) c1), (meetingRecord env (cells y) c2).
  split.
  { simpl. fold saved. rewrite <- app_assoc. reflexivity. }
  split; [reflexivity|]. split; [reflexivity|].
  split.
  { intros i m Hm. simpl. rewrite nth_error_map, Hm. simpl.
    eexists. split; [reflexivity|]. auto. }
  split.
  { intros i l Hl. simpl. rewrite nth_error_map, Hl. simpl.
    eexists. split; [reflexivity|]. auto. }
  simpl. rewrite !length_map. auto.
Qed.

(** The meeting of the sample user: the two sample translation entries, one
    chat message, ended at two different times. *)
Lemma finalize_twice_same_transcripts_witness :
  let env := Sample.env (Some Sample.quietRoom) false false in
  let y := run [(env, TypeChat Sample.hello);
                (env, SendChat (Sample.clock 1700000001000))]
             (start None 1700000000000 1700000000000) in
  let y2 := step env (EndMeeting (Sample.clock 1700000009000))
              (step env (EndMeeting (Sample.clock 1700000005000)) y) in
  exists rec1 rec2,
    storedMeetings (world y2) = Some [rec1; rec2]
    /\ MeetingRecord.chatMessages rec1 = MeetingRecord.chatMessages rec2
    /\ MeetingRecord.translationLog rec1 = MeetingRecord.translationLog rec2
    /\ exists e,
         nth_error (MeetingRecord.chatMessages rec1) 0 = Some e
         /\ MeetingRecord.c_message e = Sample.hello.
Proof.
  intros env y y2.
  destruct (finalize_twice_same_transcripts env
              (Sample.clock 1700000005000) (Sample.clock 1700000009000) y)
    as (_ & rec1 & rec2 & Hstored & Hchat & Htr & Hall & _).
  exists rec1, rec2.
  split; [exact Hstored|]. split; [exact Hchat|]. split; [exact Htr|].
  destruct (Hall 0%nat _ eq_refl) as (e & He & _ & _ & Hmsg & _).
  exists e. split; [exact He | exact Hmsg].
Defined.

(** * Decimal numerals *)

Lemma to_int_proper (z : Z) : Z.to_int z <> Decimal.Pos Decimal.Nil
                              /\ Z.to_int z <> Decimal.Neg Decimal.Nil.
Proof.
  destruct z as [|p|p]; simpl; split; try discriminate;
    intros [= H]; exact (DecimalPos.Unsigned.to_uint_nonnil p H).
Qed.

(** A number is read back from its decimal numeral. *)
Lemma Number_toString_inj (a b : Z) :
  JS.Number_toString a = JS.Number_toString b -> a = b.
Proof.
  unfold JS.Number_toString. intros H.
  apply DecimalZ.to_int_inj.
  apply (f_equal NilZero.int_of_string) in H.
  destruct (to_int_proper a) as [Ha1 Ha2].
  destruct (to_int_proper b) as [Hb1 Hb2].
  rewrite !NilZero.isi in H by assumption.
  congruence.
Qed.

(** * Duration *)

Lemma string_length_app (a b : string) :
  String.length (a ++ b)%string = String.length a + String.length b.
Proof. induction a as [|c a IH]; simpl; [reflexivity | rewrite IH; reflexivity]. Qed.

Lemma chars_app (a b : string) :
  list_ascii_of_string (a ++ b)%string
  = list_ascii_of_string a ++ list_ascii_of_string b.
Proof. induction a as [|c a IH]; simpl; [reflexivity | rewrite IH; reflexivity]. Qed.

Lemma zeros_length (k : nat) : String.length (ISO.zeros k) = k.
Proof. induction k as [|k IH]; simpl; [reflexivity | rewrite IH; reflexivity]. Qed.

(** The numeral of a natural number is the plain digit string. *)
Lemma Number_toString_N (n : N) :
  JS.Number_toString (Z.of_N n) = NilEmpty.string_of_uint (N.to_uint n).
Proof.
  unfold JS.Number_toString. destruct n as [|p]; [reflexivity|].
  simpl. unfold NilZero.string_of_uint.
  pose proof (DecimalPos.Unsigned.to_uint_nonnil p) as H.
  destruct (Pos.to_uint p); [contradiction | reflexivity ..].
Qed.

Lemma numeral_no_colon (d : Decimal.uint) :
  ~ In ":"%char (list_ascii_of_string (NilEmpty.string_of_uint d)).
Proof.
  induction d; simpl; intros H; try (destruct H as [H|H]; [discriminate H | auto]).
  exact H.
Qed.

Lemma zeros_no_colon (k : nat) :
  ~ In ":"%char (list_ascii_of_string (ISO.zeros k)).
Proof.
  induction k as [|k IH]; simpl; intros H; [exact H|].
  destruct H as [H|H]; [discriminate H | auto].
Qed.

Lemma pad_no_colon (w : nat) (n : N) :
  ~ In ":"%char (list_ascii_of_string (ISO.pad w (Z.of_N n))).
Proof.
  unfold ISO.pad. rewrite chars_app, Number_toString_N. intros H.
  apply in_app_or in H. destruct H as [H|H].
  - exact (zeros_no_colon _ H).
  - exact (numeral_no_colon _ H).
Qed.

(** A padded numeral reads back as the number. *)
Lemma read_zeros (k : nat) (s : string) :
  option_map N.of_uint (NilEmpty.uint_of_string (ISO.zeros k ++ s)%string)
  = option_map N.of_uint (NilEmpty.uint_of_string s).
Proof.
  induction k as [|k IH]; simpl; [reflexivity|].
  rewrite <- IH.
  destruct (NilEmpty.uint_of_string (ISO.zeros k ++ s)%string); reflexivity.
Qed.

Lemma read_pad (w : nat) (n : N) :
  option_map N.of_uint (NilEmpty.uint_of_string (ISO.pad w (Z.of_N n)))
  = Some n.
Proof.
  unfold ISO.pad. rewrite read_zeros, Number_toString_N, NilEmpty.usu.
  simpl. rewrite DecimalN.Unsigned.of_to. reflexivity.
Qed.

Lemma pad_inj (w : nat) (a b : N) :
  ISO.pad w (Z.of_N a) = ISO.pad w (Z.of_N b) -> a = b.
Proof.
  intros H.
  pose proof (read_pad w a) as Ha. rewrite H, read_pad in Ha. congruence.
Qed.

(** Two texts cut at their first colon are equal part by part. *)
Lemma colon_split (u1 u2 v1 v2 : string) :
  ~ In ":"%char (list_ascii_of_string u1) ->
  ~ In ":"%char (list_ascii_of_string u2) ->
  (u1 ++ ":" ++ v1 = u2 ++ ":" ++ v2)%string -> u1 = u2 /\ v1 = v2.
Proof.
  revert u2. induction u1 as [|c u1 IH]; intros [|c2 u2] H1 H2 E; simpl in *.
  - injection E as E. auto.
  - injection E as Ec E. subst c2. exfalso. apply H2. auto.
  - injection E as Ec E. subst c. exfalso. apply H1. auto.
  - injection E as Ec E. subst c2.
    destruct (IH u2) as [Eu Ev]; auto. subst. auto.
Qed.

(** X1.  Different durations are shown differently. *)
Theorem formatDuration_injective (a b : N) :
  formatDuration a = formatDuration b -> a = b.
Proof.
  unfold formatDuration. intros H.
  apply colon_split in H; try apply pad_no_colon.
  destruct H as [Hm Hs]. apply pad_inj in Hm. apply pad_inj in Hs.
  rewrite (N.div_mod a 60), (N.div_mod b 60) by discriminate.
  rewrite Hm, Hs. reflexivity.
Qed.

Lemma formatDuration_injective_witness : 125%N = (2 * 60 + 5)%N.
Proof.
  apply formatDuration_injective. reflexivity.
Defined.

Lemma pad2_length_small (n : N) :
  (n < 100)%N -> String.length (ISO.pad 2 (Z.of_N n)) = 2.
Proof.
  intros H.
  assert (A : forallb (fun k => Nat.eqb (String.length
                         (ISO.pad 2 (Z.of_N (N.of_nat k)))) 2) (seq 0 100)
              = true) by (vm_compute; reflexivity).
  rewrite forallb_forall in A.
  specialize (A (N.to_nat n)). rewrite N2Nat.id in A.
  apply Nat.eqb_eq, A, in_seq. lia.
Qed.

Lemma pad2_length_min (n : Z) : 2 <= String.length (ISO.pad 2 n).
Proof.
  unfold ISO.pad. rewrite string_length_app, zeros_length. lia.
Qed.

(** X2.  A duration is never shown in fewer than five characters, and in
    exactly five ([MM:SS]) below a hundred minutes; the colon then stands
    in the middle. *)
Theorem formatDuration_length (s : N) :
  5 <= String.length (formatDuration s)
  /\ ((s < 6000)%N ->
      String.length (formatDuration s) = 5
      /\ String.get 2 (formatDuration s) = Some ":"%char).
Proof.
  unfold formatDuration. split.
  - rewrite !string_length_app. simpl.
    pose proof (pad2_length_min (Z.of_N (s / 60))).
    pose proof (pad2_length_min (Z.of_N (s mod 60))). lia.
  - intros H.
    assert (Hm : (s / 60 < 100)%N).
    { apply N.Div0.div_lt_upper_bound. lia. }
    assert (Hs : (s mod 60 < 100)%N).
    { pose proof (N.mod_lt s 60). lia. }
    pose proof (pad2_length_small _ Hm) as Lm.
    pose proof (pad2_length_small _ Hs) as Ls.
    split.
    + rewrite !string_length_app. simpl. lia.
    + destruct (ISO.pad 2 (Z.of_N (s / 60))) as [|c1 [|c2 [|c3 r]]];
        simpl in Lm; try discriminate. reflexivity.
Qed.

Lemma formatDuration_length_witness : formatDuration 125 = "02:05"
  /\ String.length (formatDuration 125) = 5.
Proof.
  split; [reflexivity|].
  apply (formatDuration_length 125). reflexivity.
Defined.

(** * Runs of the controller *)

(** Case analysis on the innermost condition the goal still branches
    on. *)
Ltac split_goal :=
  repeat match goal with
    | |- context [match ?x with _ => _ end] =>
        lazymatch x with
        | context [match _ with _ => _ end] => fail
        | _ => destruct x eqn:?; simpl
        end
    end.

(** An event that appends to the chat gives its entry the numeral of its
    [Date.now()] as id. *)
Lemma step_appends_id (env : Env) (ev : Event) (y : Sys) (m : ChatMessage.t) :
  chatMessages (cells (step env ev y)) = chatMessages (cells y) ++ [m] ->
  exists c, reading ev = Some c
            /\ ChatMessage.id m = JS.Number_toString (now c)
            /\ ChatMessage.sender m = User.name (currentUser env).
Proof.
  assert (Hno : forall l : list ChatMessage.t, l = l ++ [m] -> False).
  { intros l E. apply (f_equal (@length _)) in E.
    rewrite length_app in E. simpl in E. lia. }
  destruct ev; run_handler; simpl; split_goal; intros E;
    try (exfalso; exact (Hno _ E));
    apply app_inv_head in E; injection E as <-; eexists; repeat split.
Qed.

(** X3.  Two chat entries have the same id, the key the page lists them
    under, exactly when the events that appended them read the same
    [Date.now()]. *)
Theorem chat_ids_follow_clock (envA envB : Env) (evA evB : Event)
  (yA yB : Sys) (mA mB : ChatMessage.t) (cA cB : Clock) :
  chatMessages (cells (step envA evA yA)) = chatMessages (cells yA) ++ [mA] ->
  chatMessages (cells (step envB evB yB)) = chatMessages (cells yB) ++ [mB] ->
  reading evA = Some cA -> reading evB = Some cB ->
  (ChatMessage.id mA = ChatMessage.id mB <-> now cA = now cB).
Proof.
  intros HA HB RA RB.
  destruct (step_appends_id _ _ _ _ HA) as (cA' & RA' & IA & _).
  destruct (step_appends_id _ _ _ _ HB) as (cB' & RB' & IB & _).
  assert (cA' = cA) by congruence. assert (cB' = cB) by congruence. subst.
  rewrite IA, IB. split.
  - apply Number_toString_inj.
  - intros ->. reflexivity.
Qed.

(** Two messages sent within the same millisecond share their id. *)
Lemma chat_ids_follow_clock_witness :
  let env := Sample.env (Some Sample.quietRoom) false false in
  let y0 := step env (TypeChat Sample.hello) (start None 0 0) in
  let y1 := step env (SendChat {| now := 7; date := 7 |}%Z) y0 in
  let y2 := step env (PickSticker [0x2728]%N {| now := 7; date := 8 |}%Z) y1 in
  exists mA mB,
    chatMessages (cells y2) = [mA; mB]
    /\ ChatMessage.id mA = ChatMessage.id mB.
Proof.
  intros env y0 y1 y2.
  eexists. eexists. split; [reflexivity|].
  apply (proj2 (chat_ids_follow_clock env env
                  (SendChat {| now := 7; date := 7 |}%Z)
                  (PickSticker [0x2728]%N {| now := 7; date := 8 |}%Z)
                  y0 y1 _ _ _ _ eq_refl eq_refl eq_refl eq_refl)).
  reflexivity.
Defined.

(** What one event does to the stored meetings and to the navigation. *)
Lemma step_storage (env : Env) (ev : Event) (y : Sys) :
  (savedMeetings (world (step env ev y)) = savedMeetings (world y)
   /\ navigated (world (step env ev y)) = navigated (world y)
   /\ meetingsEnded [(env, ev)] = 0)
  \/ exists rec,
       savedMeetings (world (step env ev y)) = savedMeetings (world y) ++ [rec]
       /\ navigated (world (step env ev y))
          = navigated (world y) ++ [("/minutes/" ++ MeetingRecord.id rec)%string]
       /\ meetingsEnded [(env, ev)] = 1.
Proof.
  destruct ev;
    try (left; run_handler; unfold savedMeetings; simpl; split_goal;
         repeat split; reflexivity).
  right. exists (meetingRecord env (cells y) c).
  run_handler. unfold savedMeetings. simpl. repeat split.
Qed.

(** X4.  Through any run, the meetings already stored stay where they are;
    every ending of the meeting adds one record after them and navigates
    to the minutes page of that record, and nothing else stores a record
    or navigates. *)
Theorem storage_grows_with_endings (tr : list (Env * Event)) (y : Sys) :
  exists added,
    savedMeetings (world (run tr y)) = savedMeetings (world y) ++ added
    /\ navigated (world (run tr y))
       = navigated (world y)
         ++ map (fun rec => ("/minutes/" ++ MeetingRecord.id rec)%string) added
    /\ length added = meetingsEnded tr.
Proof.
  revert y. induction tr as [|[env ev] tr IH]; intros y.
  - exists []. simpl. rewrite !app_nil_r. auto.
  - simpl run. destruct (IH (step env ev y)) as (added & Hs & Hn & Hl).
    assert (Hc : meetingsEnded ((env, ev) :: tr)
                 = meetingsEnded [(env, ev)] + meetingsEnded tr).
    { unfold meetingsEnded. simpl. destruct ev; reflexivity. }
    destruct (step_storage env ev y) as [(Es & En & Ec)|(rec & Es & En & Ec)].
    + exists added. rewrite Hs, Hn, Es, En, Hc, Ec. auto.
    + exists (rec :: added). rewrite Hs, Hn, Es, En, Hc, Ec. simpl.
      rewrite <- !app_assoc. simpl. auto.
Qed.

(** X5.  Without the bridge to the host process no run ever sends the host
    a message, and a closed picker stays closed. *)
Theorem no_bridge_no_host_traffic (tr : list (Env * Event)) (y : Sys) :
  Forall (fun ee => ipcRenderer (fst ee) = false) tr ->
  ipcSent (world (run tr y)) = ipcSent (world y)
  /\ (showScreenPickerModal (cells y) = false ->
      showScreenPickerModal (cells (run tr y)) = false).
Proof.
  revert y. induction tr as [|[env ev] tr IH]; intros y Hall; simpl.
  - auto.
  - inversion Hall as [|? ? Hb Hrest]; subst. simpl in Hb.
    destruct (IH (step env ev y) Hrest) as [Hsent Hclosed].
    assert (Hstep : ipcSent (world (step env ev y)) = ipcSent (world y)
                    /\ showScreenPickerModal (cells (step env ev y))
                       = showScreenPickerModal (cells y)
                       \/ showScreenPickerModal (cells (step env ev y)) = false
                          /\ ipcSent (world (step env ev y)) = ipcSent (world y)).
    { destruct ev; run_handler; rewrite ?Hb; simpl; split_goal; auto. }
    split.
    + rewrite Hsent. destruct Hstep as [[E _]|[_ E]]; exact E.
    + intros Hy. apply Hclosed.
      destruct Hstep as [[_ E]|[E _]]; congruence.
Qed.

Lemma no_bridge_no_host_traffic_witness :
  let env := Sample.env (Some Sample.quietRoom) false false in
  let tr := [(env, ClickShare); (env, OpenScreenPicker [Sample.screen1]);
             (env, PickScreen "screen-1"); (env, CancelPicker)] in
  ipcSent (world (run tr (start None 0 0))) = [].
Proof.
  intros env tr.
  refine (proj1 (no_bridge_no_host_traffic tr (start None 0 0) _)).
  repeat constructor.
Defined.

(** What one event does to the messages sent to the host and to the
    picker. *)
Lemma step_replies (env : Env) (ev : Event) (y : Sys) :
  length (ipcSent (world (step env ev y)))
  + Nat.b2n (showScreenPickerModal (cells (step env ev y)))
  <= length (ipcSent (world y)) + Nat.b2n (showScreenPickerModal (cells y))
     + pickerRequests [(env, ev)].
Proof.
  destruct ev; run_handler; unfold pickerRequests; simpl; split_goal;
    rewrite ?length_app; simpl;
    try match goal with H : showScreenPickerModal _ = _ |- _ => rewrite H end;
    simpl; try lia;
    destruct (showScreenPickerModal (cells y)); simpl; lia.
Qed.

(** X6.  The host never gets more answers than it asked questions: through
    any run, the messages sent to the host, plus one while the picker is
    open, number at most the picker requests of the run (counting what was
    there before it). *)
Theorem replies_at_most_requests (tr : list (Env * Event)) (y : Sys) :
  length (ipcSent (world (run tr y)))
  + Nat.b2n (showScreenPickerModal (cells (run tr y)))
  <= length (ipcSent (world y)) + Nat.b2n (showScreenPickerModal (cells y))
     + pickerRequests tr.
Proof.
  revert y. induction tr as [|[env ev] tr IH]; intros y; simpl run.
  - unfold pickerRequests. simpl. lia.
  - pose proof (IH (step env ev y)) as H1.
    pose proof (step_replies env ev y) as H2.
    assert (Hc : pickerRequests ((env, ev) :: tr)
                 = pickerRequests [(env, ev)] + pickerRequests tr).
    { unfold pickerRequests. simpl. destruct ev; reflexivity. }
    lia.
Qed.

(** X7.  No event changes the roster or the translation log: after any run
    they are what they were. *)
Theorem roster_and_translations_fixed (tr : list (Env * Event)) (y : Sys) :
  participants (cells (run tr y)) = participants (cells y)
  /\ translationLogs (cells (run tr y)) = translationLogs (cells y).
Proof.
  revert y. induction tr as [|[env ev] tr IH]; intros y; simpl run.
  - auto.
  - destruct (IH (step env ev y)) as [Hp Ht]. rewrite Hp, Ht.
    destruct ev; run_handler; simpl; split_goal; auto.
Qed.

(** X8.  As long as the current user stays the same, every entry a run adds
    to the chat carries that user's name as sender, so the page shows it on
    the user's own side. *)
Theorem appended_entries_are_own (env0 : Env) (tr : list (Env * Event))
  (y : Sys) :
  Forall (fun ee => currentUser (fst ee) = currentUser env0) tr ->
  Forall (fun m => isOwn env0 m = true) (chatMessages (cells y)) ->
  Forall (fun m => isOwn env0 m = true) (chatMessages (cells (run tr y))).
Proof.
  revert y. induction tr as [|[env ev] tr IH]; intros y Hall Hy; simpl run.
  - exact Hy.
  - inversion Hall as [|? ? Hu Hrest]; subst. simpl in Hu.
    apply IH; [exact Hrest|].
    destruct (step_appends env ev y) as [E|[m [E _]]].
    + rewrite E. exact Hy.
    + destruct (step_appends_id env ev y m E) as (c & _ & _ & Hsender).
      rewrite E. apply Forall_app. split; [exact Hy|].
      constructor; [|constructor].
      unfold isOwn. rewrite Hsender, Hu. apply String.eqb_refl.
Qed.

Lemma appended_entries_are_own_witness :
  let env := Sample.env (Some Sample.quietRoom) false false in
  let tr := [(env, TypeChat Sample.hello); (env, SendChat (Sample.clock 3));
             (env, AttachFile (Some Sample.hello) "blob:1" (Sample.clock 4))] in
  Forall (fun m => isOwn env m = true)
    (chatMessages (cells (run tr (start None 0 0)))).
Proof.
  intros env tr.
  apply (appended_entries_are_own env tr (start None 0 0)).
  - repeat constructor.
  - constructor.
Defined.

(** * The meeting record *)

(** X9.  Every translation entry of a record names the two languages of
    the pair, each once: Japanese as the original with Korean as the
    translation, or the other way round, according to the language of the
    log entry it comes from. *)
Theorem record_language_labels (env : Env) (r : State) (c : Clock)
  (e : MeetingRecord.translation) :
  In e (MeetingRecord.translationLog (meetingRecord env r c)) ->
  exists log,
    In log (translationLogs r)
    /\ MeetingRecord.t_id e = TranslationLog.id log
    /\ match TranslationLog.originalLang log with
       | ja => MeetingRecord.t_originalLang e = "🇯🇵 日本語"
               /\ MeetingRecord.t_translatedLang e = "🇰🇷 한국어"
       | ko => MeetingRecord.t_originalLang e = "🇰🇷 한국어"
               /\ MeetingRecord.t_translatedLang e = "🇯🇵 日本語"
       end
    /\ MeetingRecord.t_originalLang e <> MeetingRecord.t_translatedLang e.
Proof.
  simpl. intros H. apply in_map_iff in H. destruct H as (log & <- & Hin).
  exists log. simpl. split; [exact Hin|]. split; [reflexivity|].
  destruct (TranslationLog.originalLang log); split; auto; discriminate.
Qed.

(** The Korean sample entry is labelled as translated into Japanese. *)
Lemma record_language_labels_witness :
  let y := start None 0 0 in
  let env := Sample.env (Some Sample.quietRoom) false false in
  exists e,
    nth_error (MeetingRecord.translationLog
                 (meetingRecord env (cells y) (Sample.clock 9))) 1 = Some e
    /\ MeetingRecord.t_originalLang e <> MeetingRecord.t_translatedLang e.
Proof.
  intros y env.
  destruct (nth_error (MeetingRecord.translationLog
                         (meetingRecord env (cells y) (Sample.clock 9))) 1)
    as [e|] eqn:E; [|discriminate E].
  exists e. split; [reflexivity|].
  destruct (record_language_labels env (cells y) (Sample.clock 9) e
              (nth_error_In _ 1 E)) as (log & _ & _ & _ & H).
  exact H.
Defined.

(** X10.  The participants of a record are the current user, under the id
    [me] and with the user's own name and language, followed by the roster
    in its order, one entry each with the id and name of the roster entry;
    the language of such an entry is that of the roster entry, and [ja]
    when the roster entry gives none. *)
Theorem record_participants (env : Env) (r : State) (c : Clock) :
  let ps := MeetingRecord.participants (meetingRecord env r c) in
  length ps = S (length (participants r))
  /\ nth_error ps 0
     = Some {| MeetingRecord.p_id := "me";
               MeetingRecord.p_name := User.name (currentUser env);
               MeetingRecord.p_language := User.language (currentUser env) |}
  /\ forall i p,
       nth_error (participants r) i = Some p ->
       nth_error ps (S i)
       = Some {| MeetingRecord.p_id := Participant.id p;
                 MeetingRecord.p_name := Participant.name p;
                 MeetingRecord.p_language :=
                   Some match Participant.language p with
                        | Some ja => "ja"
                        | Some ko => "ko"
                        | None => "ja"
                        end |}.
Proof.
  simpl. rewrite length_map. split; [reflexivity|]. split; [reflexivity|].
  intros i p Hp. rewrite nth_error_map, Hp. simpl. do 2 f_equal.
  destruct (Participant.language p) as [[|]|]; reflexivity.
Qed.

(** A roster of a Korean speaker and of a guest who gave no language: the
    guest is recorded under [ja], with the name the roster has. *)
Lemma record_participants_witness :
  let env := Sample.env (Some Sample.quietRoom) false false in
  let guest :=
    {| Participant.id := "7"; Participant.name := "Guest";
       Participant.isVideoOn := false; Participant.isMuted := true;
       Participant.isSpeaking := None; Participant.language := None |} in
  let speaker :=
    {| Participant.id := "8"; Participant.name := "Jisoo";
       Participant.isVideoOn := true; Participant.isMuted := false;
       Participant.isSpeaking := None; Participant.language := Some ko |} in
  let r := upd_participants [speaker; guest] Sample.cells0 in
  let ps := MeetingRecord.participants
              (meetingRecord env r (Sample.clock 9)) in
  nth_error ps 1
  = Some {| MeetingRecord.p_id := "8"; MeetingRecord.p_name := "Jisoo";
            MeetingRecord.p_language := Some "ko" |}
  /\ nth_error ps 2
     = Some {| MeetingRecord.p_id := "7"; MeetingRecord.p_name := "Guest";
               MeetingRecord.p_language := Some "ja" |}
  /\ length ps = 3.
Proof.
  intros env guest speaker r ps.
  destruct (record_participants env r (Sample.clock 9)) as (Hlen & _ & Hroster).
  split; [exact (Hroster 0 speaker eq_refl)|].
  split; [exact (Hroster 1 guest eq_refl) | exact Hlen].
Defined.

(** * Chat input *)

Lemma blank_app (a b : JS.text) :
  forallb JS.isWhiteSpace b = false ->
  forallb JS.isWhiteSpace (a ++ b) = false.
Proof.
  intros H. rewrite forallb_app, H. apply andb_false_r.
Qed.

Lemma stickers_not_blank (sticker : JS.text) :
  In sticker stickers -> forallb JS.isWhiteSpace sticker = false.
Proof.
  assert (A : forallb (fun s => negb (forallb JS.isWhiteSpace s)) stickers
              = true) by reflexivity.
  rewrite forallb_forall in A. intros H. apply A in H.
  apply negb_true_iff in H. exact H.
Qed.

(** X11.  A sticker button sends nothing: it puts the sticker at the end of
    the input and closes the sticker picker.  Sending after that, from the
    next render, always appends one entry, whose message is the earlier
    input followed by the sticker, whatever the input was before. *)
Theorem sticker_then_send (env : Env) (sticker : JS.text) (c : Clock)
  (s : State) (w : World) :
  In sticker stickers ->
  let s1 := fst (exec (stickerButton_onClick s sticker) s w) in
  let w1 := snd (exec (stickerButton_onClick s sticker) s w) in
  let s2 := fst (exec (handleSendChat env s1 c) s1 w1) in
  (chatMessages s1 = chatMessages s
   /\ chatInput s1 = chatInput s ++ sticker
   /\ showStickerPicker s1 = false
   /\ w1 = w)
  /\ exists m,
       chatMessages s2 = chatMessages s ++ [m]
       /\ ChatMessage.message m = chatInput s ++ sticker
       /\ chatInput s2 = [].
Proof.
  intros Hin. cbv zeta. unfold stickerButton_onClick, handleSendChat.
  run_handler. simpl.
  rewrite trim_blank, (blank_app _ _ (stickers_not_blank _ Hin)). simpl.
  split; [auto|]. eexists. repeat split.
Qed.

Lemma sticker_then_send_witness :
  let env := Sample.env (Some Sample.quietRoom) false false in
  let s := cells (start None 0 0) in
  let s1 := fst (exec (stickerButton_onClick s [0x2728]%N) s emptyWorld) in
  let s2 := fst (exec (handleSendChat env s1 (Sample.clock 5)) s1 emptyWorld) in
  exists m, chatMessages s2 = [m] /\ ChatMessage.message m = [0x2728]%N.
Proof.
  intros env s s1 s2.
  destruct (sticker_then_send env [0x2728]%N (Sample.clock 5) s emptyWorld)
    as (_ & m & Hlog & Hmsg & _).
  - simpl. tauto.
  - exists m. split; [exact Hlog | exact Hmsg].
Defined.

(** X12.  The file callback appends to the log as it is when it runs,
    while [handleSendChat] writes the log of its own render plus the new
    entry.  So of a file attached and a message sent from one and the same
    render, both are kept when the message goes first, and only the
    message is when the file goes first. *)
Theorem send_overwrites_attach_appends (env : Env) (r : State)
  (fileName : JS.text) (fileUrl : string) (c1 c2 : Clock) (w : World) :
  forallb JS.isWhiteSpace (chatInput r) = false ->
  let attach := handleFileAttach_onchange env (Some fileName) fileUrl c1 in
  let send := handleSendChat env r c2 in
  let fileFirst := fst (exec (attach ;; send) r w) in
  let sendFirst := fst (exec (send ;; attach) r w) in
  (exists m, chatMessages fileFirst = chatMessages r ++ [m]
             /\ ChatMessage.message m = chatInput r)
  /\ (exists m f, chatMessages sendFirst = chatMessages r ++ [m; f]
                  /\ ChatMessage.message m = chatInput r
                  /\ ChatMessage.message f = fileName
                  /\ ChatMessage.fileUrl f = Some fileUrl).
Proof.
  intros Hinput. cbv zeta. run_handler.
  rewrite trim_blank, Hinput. simpl. split.
  - eexists. split; reflexivity.
  - eexists. eexists. rewrite <- app_assoc. simpl. repeat split.
Qed.

Lemma send_overwrites_attach_appends_witness :
  let env := Sample.env (Some Sample.quietRoom) false false in
  let r := cells (step env (TypeChat Sample.hello) (start None 0 0)) in
  let attach :=
    handleFileAttach_onchange env (Some Sample.hello) "blob:1" (Sample.clock 1) in
  let send := handleSendChat env r (Sample.clock 2) in
  length (chatMessages (fst (exec (attach ;; send) r emptyWorld))) = 1
  /\ length (chatMessages (fst (exec (send ;; attach) r emptyWorld))) = 2.
Proof.
  intros env r attach send.
  destruct (send_overwrites_attach_appends env r Sample.hello "blob:1"
              (Sample.clock 1) (Sample.clock 2) emptyWorld eq_refl)
    as ((m & H1 & _) & (m' & f & H2 & _)).
  split.
  - exact (eq_trans (f_equal (@length _) H1) eq_refl).
  - exact (eq_trans (f_equal (@length _) H2) eq_refl).
Defined.

(** * Tracks *)

(** X13.  The tracks are split without loss: a track is shown among the
    remote ones exactly when it is in the track set and not local, in the
    order of the track set; the local camera and screen tracks, when there
    are any, are local tracks of the set, not among the remote ones, and
    not the same track. *)
Theorem tracks_split (tracks : list Track.Ref) :
  (forall t, In t (remoteTracks tracks)
             <-> In t tracks /\ Track.isLocal (Track.participant t) = false)
  /\ length (remoteTracks tracks)
     + length (filter (fun t => Track.isLocal (Track.participant t)) tracks)
     = length tracks
  /\ (forall t, localCameraTrack tracks = Some t ->
      In t tracks /\ Track.isLocal (Track.participant t) = true
      /\ Track.source t = Track.Camera /\ ~ In t (remoteTracks tracks))
  /\ (forall t, localScreenTrack tracks = Some t ->
      In t tracks /\ Track.isLocal (Track.participant t) = true
      /\ Track.source t = Track.ScreenShare /\ ~ In t (remoteTracks tracks))
  /\ (forall t u, localCameraTrack tracks = Some t ->
      localScreenTrack tracks = Some u -> t <> u).
Proof.
  assert (Hremote : forall t, In t (remoteTracks tracks)
             <-> In t tracks /\ Track.isLocal (Track.participant t) = false).
  { intros t. unfold remoteTracks. rewrite filter_In, negb_true_iff. tauto. }
  assert (Hcam : forall t, localCameraTrack tracks = Some t ->
      In t tracks /\ Track.isLocal (Track.participant t) = true
      /\ Track.source t = Track.Camera).
  { intros t H. apply find_some in H. destruct H as [Hin H].
    apply andb_true_iff in H. destruct H as [Hl Hs].
    repeat split; auto. destruct (Track.source t); simpl in Hs; congruence. }
  assert (Hscr : forall t, localScreenTrack tracks = Some t ->
      In t tracks /\ Track.isLocal (Track.participant t) = true
      /\ Track.source t = Track.ScreenShare).
  { intros t H. apply find_some in H. destruct H as [Hin H].
    apply andb_true_iff in H. destruct H as [Hl Hs].
    repeat split; auto. destruct (Track.source t); simpl in Hs; congruence. }
  split; [exact Hremote|]. split.
  { clear Hremote Hcam Hscr. unfold remoteTracks.
    induction tracks as [|t l IH]; simpl; [reflexivity|].
    destruct (Track.isLocal (Track.participant t)); simpl; lia. }
  split.
  { intros t H. destruct (Hcam t H) as (Hin & Hl & Hs).
    repeat split; auto. intros Hr. apply Hremote in Hr. destruct Hr. congruence. }
  split.
  { intros t H. destruct (Hscr t H) as (Hin & Hl & Hs).
    repeat split; auto. intros Hr. apply Hremote in Hr. destruct Hr. congruence. }
  intros t u Ht Hu E. subst u.
  destruct (Hcam t Ht) as (_ & _ & Hs1). destruct (Hscr t Hu) as (_ & _ & Hs2).
  congruence.
Qed.

Lemma tracks_split_witness :
  exists cam scr,
    localCameraTrack Scene.tracks = Some cam
    /\ localScreenTrack Scene.tracks = Some scr
    /\ cam <> scr
    /\ ~ In cam (remoteTracks Scene.tracks)
    /\ length (remoteTracks Scene.tracks) = 2.
Proof.
  destruct (tracks_split Scene.tracks) as (_ & _ & Hcam & _ & Hdiff).
  eexists. eexists.
  split; [reflexivity|]. split; [reflexivity|].
  split; [exact (Hdiff _ _ eq_refl eq_refl)|].
  split; [exact (proj2 (proj2 (proj2 (Hcam _ eq_refl))))|reflexivity].
Defined.

(** X14.  The local camera tile has no track exactly when the track set
    holds no local camera track; otherwise it gets the first one of the
    set. *)
Theorem localCameraTrack_first (tracks : list Track.Ref) :
  (localCameraTrack tracks = None <->
   forall t, In t tracks ->
     ~ (Track.isLocal (Track.participant t) = true
        /\ Track.source t = Track.Camera))
  /\ (forall t, localCameraTrack tracks = Some t ->
      exists before after,
        tracks = before ++ t :: after
        /\ forall u, In u before ->
             ~ (Track.isLocal (Track.participant u) = true
                /\ Track.source u = Track.Camera)).
Proof.
  assert (Hp : forall t,
    (Track.isLocal (Track.participant t)
     && Track.Source_eqb (Track.source t) Track.Camera) = true
    <-> Track.isLocal (Track.participant t) = true
        /\ Track.source t = Track.Camera).
  { intros t. rewrite andb_true_iff.
    destruct (Track.source t); simpl; intuition congruence. }
  unfold localCameraTrack. split.
  - split.
    + intros H t Hin Ht. apply Hp in Ht.
      pose proof (find_none _ _ H t Hin) as Hn. simpl in Hn. congruence.
    + intros H. induction tracks as [|t l IH]; simpl; [reflexivity|].
      destruct (Track.isLocal (Track.participant t)
                && Track.Source_eqb (Track.source t) Track.Camera) eqn:E.
      * exfalso. apply (H t); [simpl; auto | apply Hp; exact E].
      * apply IH. intros u Hu. apply H. simpl. auto.
  - induction tracks as [|t0 l IH]; simpl; intros t H; [discriminate|].
    destruct (Track.isLocal (Track.participant t0)
              && Track.Source_eqb (Track.source t0) Track.Camera) eqn:E.
    + injection H as <-. exists [], l. split; [reflexivity|].
      intros u [].
    + destruct (IH t H) as (before & after & -> & Hb).
      exists (t0 :: before), after. split; [reflexivity|].
      intros u [<-|Hu]; [|auto].
      intros Hu. apply Hp in Hu. congruence.
Qed.

Lemma localCameraTrack_first_witness :
  localCameraTrack (remoteTracks Scene.tracks) = None.
Proof.
  apply (proj1 (localCameraTrack_first (remoteTracks Scene.tracks))).
  intros t Hin [Hl _].
  simpl in Hin. destruct Hin as [<-|[<-|[]]]; discriminate Hl.
Defined.

(** * Microphone and camera switches *)

Lemma mediaRun_mic (env : Env) (clicks : list MediaEvent) (s : MediaCells) :
  isMicOn (fst (mediaRun env clicks s))
  = xorb (isMicOn s) (Nat.odd (micClicks clicks))
  /\ micRequests (snd (mediaRun env clicks s))
     = match localParticipant env with
       | Some _ =>
           map (fun n => xorb (isMicOn s) (Nat.odd n))
             (seq 1 (micClicks clicks))
       | None => []
       end.
Proof.
  revert s. induction clicks as [|ev rest IH]; intros s.
  - simpl. rewrite xorb_false_r. destruct (localParticipant env); auto.
  - simpl mediaRun. unfold micClicks in *.
    destruct ev; simpl.
    + destruct (IH {| isMicOn := negb (isMicOn s); isVideoOn := isVideoOn s |})
        as [Hf Hr].
      destruct (mediaRun env rest _) as [s2 calls2]. simpl in *.
      set (n := length (filter _ rest)) in *.
      split.
      * rewrite Hf. rewrite Nat.odd_succ, <- Nat.negb_odd.
        destruct (isMicOn s), (Nat.odd n); reflexivity.
      * destruct (localParticipant env); simpl; [|exact Hr].
        rewrite Hr. f_equal.
        rewrite <- (seq_shift n 1), map_map. apply map_ext. intros k.
        rewrite Nat.odd_succ, <- Nat.negb_odd.
        destruct (isMicOn s), (Nat.odd k); reflexivity.
    + destruct (IH {| isMicOn := isMicOn s; isVideoOn := negb (isVideoOn s) |})
        as [Hf Hr].
      destruct (mediaRun env rest _) as [s2 calls2]. simpl in *.
      split; [exact Hf|].
      destruct (localParticipant env); simpl; exact Hr.
Qed.

(** X15.  After any series of clicks on the microphone and camera buttons,
    the microphone flag is the initial one flipped once per microphone
    click.  With the local participant present the transport was asked
    once per microphone click, and the flag is the state asked for last;
    without the participant the flag flips all the same and the transport
    is asked nothing. *)
Theorem mic_flag_is_last_request (env : Env) (clicks : list MediaEvent)
  (s : MediaCells) :
  let s' := fst (mediaRun env clicks s) in
  let asked := micRequests (snd (mediaRun env clicks s)) in
  isMicOn s' = xorb (isMicOn s) (Nat.odd (micClicks clicks))
  /\ (localParticipant env <> None ->
      length asked = micClicks clicks /\ last asked (isMicOn s) = isMicOn s')
  /\ (localParticipant env = None -> snd (mediaRun env clicks s) = []).
Proof.
  intros s' asked.
  destruct (mediaRun_mic env clicks s) as [Hf Hr]. fold s' in Hf. fold asked in Hr.
  split; [exact Hf|]. split.
  - intros Hlp. destruct (localParticipant env) as [lp|]; [|congruence].
    rewrite Hr, length_map, length_seq. split; [reflexivity|].
    rewrite Hf. destruct (micClicks clicks) as [|n]; [simpl; apply eq_sym, xorb_false_r|].
    rewrite seq_S, map_app. simpl. rewrite last_last. reflexivity.
  - intros Hlp. clear - Hlp. revert s.
    induction clicks as [|ev rest IH]; intros s; simpl; [reflexivity|].
    destruct ev; simpl; rewrite Hlp;
      match goal with |- context [mediaRun env rest ?x] =>
        specialize (IH x); destruct (mediaRun env rest x) end;
      simpl in *; exact IH.
Qed.

Lemma mic_flag_is_last_request_witness :
  let env := Sample.env (Some Sample.quietRoom) false false in
  let res := mediaRun env [ClickMic; ClickVideo; ClickMic; ClickMic]
               (initialMedia None) in
  isMicOn (fst res) = false
  /\ last (micRequests (snd res)) true = false
  /\ length (micRequests (snd res)) = 3.
Proof.
  intros env res.
  destruct (mic_flag_is_last_request env
              [ClickMic; ClickVideo; ClickMic; ClickMic] (initialMedia None))
    as (Hf & Hlast & _).
  destruct Hlast as [Hn Hl]; [discriminate|].
  split; [exact Hf|]. split; [exact (eq_trans Hl Hf) | exact Hn].
Defined.

(** * The page wrapper *)

(** X16.  The wrapper shows the room exactly when the route state holds a
    non-empty token and a non-empty server address, and then its effect
    does nothing; in every other case it shows nothing, and the effect
    tells the user and sends them to the set-up page of the meeting. *)
Theorem wrapper_renders_or_redirects (id : option string)
  (st : option Wrapper.LocationState) (s : State) (w : World) :
  ((exists tok url,
      Wrapper.field st Wrapper.livekitToken = Some tok /\ tok <> ""
      /\ Wrapper.field st Wrapper.livekitUrl = Some url /\ url <> "")
   <-> Wrapper.render id st <> None)
  /\ (forall p, Wrapper.render id st = Some p ->
      exec (Wrapper.effect id st) s w = (s, w)
      /\ Wrapper.field st Wrapper.livekitToken = Some (Wrapper.token p)
      /\ Wrapper.field st Wrapper.livekitUrl = Some (Wrapper.serverUrl p))
  /\ (Wrapper.render id st = None ->
      fst (exec (Wrapper.effect id st) s w) = s
      /\ toasts (snd (exec (Wrapper.effect id st) s w))
         = toasts w ++ [toast_error "接続情報がありません。"]
      /\ navigated (snd (exec (Wrapper.effect id st) s w))
         = navigated w
           ++ [("/meeting-setup/" ++ Wrapper.template id)%string]).
Proof.
  unfold Wrapper.render, Wrapper.effect, Wrapper.noConnection, Wrapper.truthy.
  destruct (Wrapper.field st Wrapper.livekitToken) as [tok|];
    destruct (Wrapper.field st Wrapper.livekitUrl) as [url|]; simpl;
    try destruct (String.eqb_spec tok ""); try destruct (String.eqb_spec url "");
    simpl; run_handler; simpl.
  all: split; [split; [intros (t & u & H1 & H2 & H3 & H4) | intros H];
               try congruence; try discriminate; eauto 8 |].
  all: split; [intros p H; try discriminate; injection H as <-; simpl;
               unfold JS.or_str;
               repeat match goal with
                 | |- context [String.eqb ?x ""] =>
                     destruct (String.eqb_spec x ""); try contradiction
                 end; auto
              | intros H; try discriminate; auto].
Qed.

Lemma wrapper_renders_or_redirects_witness :
  Wrapper.render (Some "42") None = None
  /\ navigated (snd (exec (Wrapper.effect (Some "42") None)
                       Sample.cells0 emptyWorld))
     = ["/meeting-setup/42"]
  /\ Wrapper.render (Some "42") (Some Scene.bare) <> None.
Proof.
  destruct (wrapper_renders_or_redirects (Some "42") None
              Sample.cells0 emptyWorld) as (_ & _ & Hnone).
  destruct (wrapper_renders_or_redirects (Some "42") (Some Scene.bare)
              Sample.cells0 emptyWorld) as (Hsome & _ & _).
  split; [reflexivity|]. split.
  - exact (proj2 (proj2 (Hnone eq_refl))).
  - apply (proj1 Hsome). exists "tok", "wss://example.test".
    repeat split; discriminate.
Defined.

(** X17.  What the wrapper hands on: the user always has a name ([Me] when
    the route state gives none or an empty one) and the language [ja]; the
    microphone flag of the page starts as the route state says, and the
    room captures audio exactly when that says on.  When the route state
    says nothing, the flag starts on while the room captures no audio. *)
Theorem wrapper_hands_on (id : option string)
  (st : option Wrapper.LocationState) (p : Wrapper.Props) :
  Wrapper.render id st = Some p ->
  let media := initialMedia (Some (Wrapper.initialSettings p)) in
  (User.name (Wrapper.currentUserProp p) <> ""
   /\ User.language (Wrapper.currentUserProp p) = Some "ja")
  /\ (forall b, Wrapper.field st Wrapper.initialMicOn = Some b ->
      isMicOn media = b
      /\ (Wrapper.audio p <> Wrapper.capture_false <-> b = true))
  /\ (Wrapper.field st Wrapper.initialMicOn = None ->
      isMicOn media = true /\ Wrapper.audio p = Wrapper.capture_false).
Proof.
  unfold Wrapper.render. destruct (Wrapper.noConnection st); [discriminate|].
  intros [= <-]. simpl. split; [split; [|reflexivity]|].
  - destruct (Wrapper.field st Wrapper.participantName) as [n|]; simpl;
      [|discriminate].
    unfold JS.or_str. destruct (String.eqb_spec n ""); [discriminate | assumption].
  - split.
    + intros b ->. simpl. split; [reflexivity|].
      destruct b; simpl; split; congruence.
    + intros ->. simpl. auto.
Qed.

Lemma wrapper_hands_on_witness :
  exists p,
    Wrapper.render (Some "42") (Some Scene.bare) = Some p
    /\ User.name (Wrapper.currentUserProp p) = "Me"
    /\ isMicOn (initialMedia (Some (Wrapper.initialSettings p))) = true
    /\ Wrapper.audio p = Wrapper.capture_false.
Proof.
  eexists. split; [reflexivity|]. split; [reflexivity|].
  exact (proj2 (proj2 (wrapper_hands_on (Some "42") (Some Scene.bare) _ eq_refl))
           eq_refl).
Defined.

(** * Device lists *)

Lemma ofKind_lengths (all : list MediaDeviceInfo) :
  length (ofKind audioinput all) + length (ofKind videoinput all)
  + length (ofKind audiooutput all) = length all.
Proof.
  unfold ofKind. induction all as [|d l IH]; simpl; [reflexivity|].
  destruct (kind d); simpl; lia.
Qed.

(** X18.  [syncDevices] loses no device and doubles none: every enumerated
    device is in the list of its own kind and in no other, and the three
    lists together are as long as the enumeration. *)
Theorem enumeration_is_partitioned (env : Env) (r : State)
  (all : list MediaDeviceInfo) (s : State) (w : World) :
  let s' := fst (exec (syncDevices env r all) s w) in
  length (mics s') + length (cameras s') + length (speakers s') = length all
  /\ forall d k, In d (devicesOf k s') <-> In d all /\ kind d = k.
Proof.
  intros s'. split.
  - pose proof (syncDevices_cells env r all s w audioinput) as [Hm _].
    pose proof (syncDevices_cells env r all s w videoinput) as [Hc _].
    pose proof (syncDevices_cells env r all s w audiooutput) as [Hs _].
    simpl in Hm, Hc, Hs. fold s' in Hm, Hc, Hs.
    rewrite Hm, Hc, Hs. apply ofKind_lengths.
  - intros d k.
    pose proof (syncDevices_cells env r all s w k) as [Hk _]. fold s' in Hk.
    rewrite Hk. unfold ofKind. rewrite filter_In.
    destruct (kind d), k; simpl; intuition congruence.
Qed.

(** * The picker's source list *)

(** X19.  The picker always offers the sources of the latest request heard
    from the host: a later request replaces the list of an earlier one, and
    neither picking nor cancelling empties it. *)
Theorem picker_lists_latest_request (tr : list (Env * Event)) (y : Sys) :
  availableScreens (cells (run tr y))
  = lastRequest tr (availableScreens (cells y)).
Proof.
  revert y. unfold lastRequest.
  induction tr as [|[env ev] tr IH]; intros y; simpl; [reflexivity|].
  rewrite IH. f_equal.
  destruct ev; run_handler; simpl; split_goal; reflexivity.
Qed.
